(** * Carbon-emission estimator: the calculation engine

    A shallow embedding of the pure calculation code of the
    carbon-emission-app:

    - [constants/config.js]      rate and emission-factor tables,
    - [utils/calculations.js]    adjustment factor, fuel consumption,
                                 emission, per-mode result records,
    - [services/bmkgService.js]  [getWeatherAdjustmentFactor],
    - the directions service     [estimateRouteAdjustments].

    JavaScript numbers are IEEE 754 binary64 values.  They are modelled with
    the Z-based specification of binary floating point of the standard
    library ([SpecFloat], precision 53, emax 1024), so every product,
    quotient and comparison below rounds exactly as the engine does. *)

From Stdlib Require Import ZArith Bool List String Ascii Lia.
From Stdlib Require Import Floats.SpecFloat.
Import ListNotations.

Local Open Scope string_scope.
Local Open Scope Z_scope.

(* ================================================================== *)
(** ** The JavaScript fragment the engine is written in *)
(* ================================================================== *)

Module JS.

(** *** Numbers *)

Definition number : Type := spec_float.

Definition prec : Z := 53.
Definition emax : Z := 1024.

Definition NaN : number := S754_nan.
Definition pos_zero : number := S754_zero false.

Definition mul : number -> number -> number := SFmul prec emax.
Definition div : number -> number -> number := SFdiv prec emax.

(** [x < y], [x > y], [x <= y] and [x == y] on numbers; every comparison
    with NaN is false. *)
Definition lt (x y : number) : bool := SFltb x y.
Definition gt (x y : number) : bool := SFltb y x.
Definition le (x y : number) : bool := SFleb x y.
Definition num_eq (x y : number) : bool := SFeqb x y.

(** The binary64 value nearest to the positive rational [n / d]
    (round to nearest, ties to even). *)
Definition of_ratio (neg : bool) (n d : positive) : number :=
  let '(q, e, l) := SFdiv_core_binary prec emax (Zpos n) 0 (Zpos d) 0 in
  binary_round_aux prec emax neg q e l.

(** A decimal literal: [dec n k] is the number a source literal with the
    digits of [n] and [k] fractional digits denotes, e.g. [dec 69 3] for
    [0.069] and [dec 150 0] for [150]. *)
Definition pow10 (k : nat) : positive := Z.to_pos (10 ^ Z.of_nat k).

Definition dec (n : Z) (k : nat) : number :=
  match n with
  | Z0 => pos_zero
  | Zpos p => of_ratio false p (pow10 k)
  | Zneg p => of_ratio true p (pow10 k)
  end.

(** *** [Number.prototype.toFixed] and [parseFloat]

    [x.toFixed(f)] yields a string; the engine only ever feeds that string
    to [parseFloat], so the string is kept in parsed form.  Following
    ECMA-262: NaN prints as "NaN"; a negative [x] prints a minus sign and
    then [-x]; a magnitude of at least 10^21 (infinities included) prints
    as [Number::toString]; otherwise the digits are those of the integer
    [n] for which [n / 10^f - x] is as close to zero as possible, the
    larger [n] when there are two. *)
Inductive numeral : Type :=
| StrNaN
| StrInfinity (neg : bool)
| StrFixed (neg : bool) (n : Z) (f : nat)   (* n / 10^f, printed with f decimals *)
| StrToString (x : number).                 (* Number::toString(x), round-trips to x *)

(** [n] of the toFixed algorithm for the magnitude [m * 2^e]:
    floor (m * 2^e * 10^f + 1/2). *)
Definition fixed_digits (m : positive) (e : Z) (f : nat) : Z :=
  let scaled := Zpos m * 10 ^ Z.of_nat f in
  if 0 <=? e then scaled * 2 ^ e
  else (2 * scaled + 2 ^ (- e)) / 2 ^ (- e + 1).

(** [m * 2^e >= 10^21] *)
Definition at_least_1e21 (m : positive) (e : Z) : bool :=
  if 0 <=? e then 10 ^ 21 <=? Zpos m * 2 ^ e
  else 10 ^ 21 * 2 ^ (- e) <=? Zpos m.

Definition toFixed (f : nat) (x : number) : numeral :=
  match x with
  | S754_nan => StrNaN
  | S754_infinity s => StrInfinity s
  | S754_zero _ => StrFixed false 0 f
  | S754_finite s m e =>
      if at_least_1e21 m e then StrToString x
      else StrFixed s (fixed_digits m e f) f
  end.

Definition parseFloat (s : numeral) : number :=
  match s with
  | StrNaN => NaN
  | StrInfinity neg => S754_infinity neg
  | StrFixed neg n f =>
      match n with
      | Zpos p => of_ratio neg p (pow10 f)
      | _ => S754_zero neg
      end
  | StrToString x => x
  end.

(** *** Values, truthiness and [||]

    The fragment of JavaScript values the engine's table lookups can
    produce: a number, [undefined], or an object (the members every object
    literal inherits from [Object.prototype] are functions or objects). *)
Inductive value : Type :=
| VNumber (x : number)
| VUndefined
| VObject.

Definition ToBoolean (v : value) : bool :=
  match v with
  | VNumber (S754_zero _) | VNumber S754_nan => false
  | VNumber _ => true
  | VUndefined => false
  | VObject => true
  end.

Definition ToNumber (v : value) : number :=
  match v with
  | VNumber x => x
  | VUndefined => NaN
  | VObject => NaN
  end.

(** [a || b] *)
Definition or_else (a b : value) : value := if ToBoolean a then a else b.

(** [x || d] for an optional numeric field [x] *)
Definition num_or (x : option number) (d : number) : number :=
  match x with
  | Some v => if ToBoolean (VNumber v) then v else d
  | None => d
  end.

(** [s || d] for an optional string field: [undefined] and the empty
    string are falsy. *)
Definition str_or (s : option string) (d : string) : string :=
  match s with
  | Some EmptyString | None => d
  | Some v => v
  end.

(** [s === lit] for an optional string field. *)
Definition strict_eq (s : option string) (lit : string) : bool :=
  match s with
  | Some v => String.eqb v lit
  | None => false
  end.

(** Names every object literal inherits from [Object.prototype]. *)
Definition object_prototype_keys : list string :=
  [ "constructor"; "hasOwnProperty"; "isPrototypeOf"; "propertyIsEnumerable";
    "toLocaleString"; "toString"; "valueOf"; "__proto__";
    "__defineGetter__"; "__defineSetter__"; "__lookupGetter__";
    "__lookupSetter__" ].

(** [obj[key]] for an object literal with the given own numeric
    properties. *)
Fixpoint own_property (props : list (string * number)) (key : string)
  : option number :=
  match props with
  | [] => None
  | (k, v) :: rest => if String.eqb k key then Some v else own_property rest key
  end.

Definition get (props : list (string * number)) (key : string) : value :=
  match own_property props key with
  | Some v => VNumber v
  | None =>
      if existsb (String.eqb key) object_prototype_keys then VObject
      else VUndefined
  end.

(** *** Strings

    Strings are byte sequences.  [toLowerCase] maps A-Z to a-z and leaves
    every other byte alone; [includes] is substring search. *)
Definition lower_ascii (c : ascii) : ascii :=
  let n := nat_of_ascii c in
  if ((65 <=? n) && (n <=? 90))%nat then ascii_of_nat (n + 32) else c.

Fixpoint toLowerCase (s : string) : string :=
  match s with
  | EmptyString => EmptyString
  | String c t => String (lower_ascii c) (toLowerCase t)
  end.

(** [hay.includes(needle)] *)
Fixpoint includes (hay needle : string) : bool :=
  String.prefix needle hay ||
  match hay with
  | EmptyString => false
  | String _ t => includes t needle
  end.

(** *** Completions

    A call either returns normally or throws. *)
Inductive error : Type :=
| TypeError
| RangeError
| Error (msg : string).

Inductive completion (A : Type) : Type :=
| Return (a : A)
| Throw (e : error).
Arguments Return {A} a.
Arguments Throw {A} e.

Definition bind {A B} (c : completion A) (k : A -> completion B)
  : completion B :=
  match c with
  | Return a => k a
  | Throw e => Throw e
  end.

(** [try { body } catch (error) { handler }] *)
Definition try_catch {A} (body : completion A) (handler : error -> completion A)
  : completion A :=
  match body with
  | Return a => Return a
  | Throw e => handler e
  end.

(** Reading a member of a value that may be [undefined] throws a
    TypeError when it is. *)
Definition member {A} (o : option A) : completion A :=
  match o with
  | Some a => Return a
  | None => Throw TypeError
  end.

End JS.

Notation "x <- c ;; k" := (JS.bind c (fun x => k))
(at level 61, c at next level, right associativity).

(* ================================================================== *)
(** ** constants/config.js *)
(* ================================================================== *)

Module Config.
Import JS.

(** Transportation consumption rates (liters per km) *)
Definition consumptionRates : list (string * number) :=
[ ("mobil",   dec 69 3);     (* 0.069  Mobil Avanza *)
  ("bus",     dec 91 3);     (* 0.091  Minibus HiAce *)
  ("motor",   dec 2 2);      (* 0.02   Motor Vario *)
  ("ka_argo", dec 5 2);      (* 0.05   KA Argo Parahyangan (per passenger) *)
  ("kcic",    dec 36 3) ].   (* 0.036  KCIC Whoosh (kWh per pkm) *)

(** Emission factors (kg CO2 per liter/kWh) *)
Definition emissionFactors : list (string * number) :=
[ ("bahan_bakar",       dec 26 1);    (* 2.6   Diesel/gasoline *)
  ("listrik_grid",      dec 85 2);    (* 0.85  PLN grid electricity *)
  ("biofuel",           dec 5 1);     (* 0.5   Biofuel LCA *)
  ("listrik_renewable", dec 0 0) ].   (* 0     Renewable electricity *)

End Config.

(* ================================================================== *)
(** ** utils/calculations.js *)
(* ================================================================== *)

Module Calculations.
Import JS Config.

(** The optional parameters ([adjustments = {}], [params = {}],
    [scenario = {}], [energySource = 'bahan_bakar']) are always passed
    here: a call that omits one is the call with the default written
    out. *)

(** The scenario object.  A field is [None] when the object has no such
    property; the empty object [{}] is [no_params]. *)
Record params : Type := {
  traffic : option string;
  cuaca : option string;
  loadFactor : option string;
  energy : option string;
  tollOption : option string
}.

Definition no_params : params :=
  {| traffic := None; cuaca := None; loadFactor := None;
     energy := None; tollOption := None |}.

(** [if (cond) factor *= k;] *)
Definition times_if (cond : bool) (k factor : number) : number :=
  if cond then mul factor k else factor.

Definition getAdjustmentFactor (p : params) : completion number :=
  let factor := dec 1 0 in
  (* Traffic adjustments *)
  let factor := times_if (strict_eq (traffic p) "padat") (dec 11 1) factor in
  let factor := times_if (strict_eq (traffic p) "sangat_padat") (dec 12 1) factor in
  (* Weather adjustments *)
  let factor := times_if (strict_eq (cuaca p) "hujan_ringan") (dec 105 2) factor in
  let factor := times_if (strict_eq (cuaca p) "hujan_lebat") (dec 11 1) factor in
  (* Load factor adjustments *)
  let factor := times_if (strict_eq (loadFactor p) "peak") (dec 115 2) factor in
  Return factor.

Definition calculateFuelConsumption (mode : string) (distance : number)
  (adjustments : params) : completion number :=
  let baseRate := or_else (get consumptionRates mode) (VNumber (dec 0 0)) in
  adjustmentFactor <- getAdjustmentFactor adjustments ;;
  Return (mul (mul (ToNumber baseRate) distance) adjustmentFactor).

Definition calculateEmission (fuelConsumption : number) (energySource : string)
  : completion number :=
  let factor := or_else (get emissionFactors energySource)
                        (get emissionFactors "bahan_bakar") in
  Return (mul fuelConsumption (ToNumber factor)).

(** The result object of [calculateComprehensiveEmission]. *)
Record result : Type := {
  mode : string;
  distance : number;
  fuelConsumption : number;
  emission : number;
  energySource : string;
  scenario : params
}.

Definition calculateComprehensiveEmission (mode : string) (distance : number)
  (scenario : params) : completion result :=
  fuelConsumption <- calculateFuelConsumption mode distance scenario ;;
  let energySource := str_or (energy scenario) "bahan_bakar" in
  emission <- calculateEmission fuelConsumption energySource ;;
  Return {| mode := mode;
            distance := parseFloat (toFixed 2 distance);
            fuelConsumption := parseFloat (toFixed 3 fuelConsumption);
            emission := parseFloat (toFixed 3 emission);
            energySource := energySource;
            scenario := scenario |}.

(** [array.map(f)] for a callback that may throw: the elements are visited
    in order and the first exception aborts the call. *)
Fixpoint map_completion {A B} (f : A -> completion B) (l : list A)
  : completion (list B) :=
  match l with
  | [] => Return []
  | a :: rest =>
      b <- f a ;;
      bs <- map_completion f rest ;;
      Return (b :: bs)
  end.

Definition calculateAllModes (distance : number) (scenario : params)
  : completion (list result) :=
  let modes := ["mobil"; "bus"; "motor"; "ka_argo"; "kcic"] in
  map_completion (fun mode => calculateComprehensiveEmission mode distance scenario) modes.

End Calculations.

(* ================================================================== *)
(** ** services/bmkgService.js *)
(* ================================================================== *)

Module BmkgService.
Import JS.

(** [weatherData.current]; a field is [None] when the object lacks it. *)
Record current_weather : Type := {
  condition : option string;
  temperature : option number;
  windSpeed : option number
}.

Record weather_data : Type := {
  current : option current_weather
}.

(** The rain branch: [if (..light..) factor *= 1.05 else if (..heavy..)
    factor *= 1.1]. *)
Definition rain_step (condition : string) (factor : number) : number :=
  if includes condition "hujan ringan" || includes condition "light rain"
  then mul factor (dec 105 2)      (* 5% increase for light rain *)
  else if includes condition "hujan lebat" || includes condition "heavy rain"
          || includes condition "hujan"
  then mul factor (dec 11 1)       (* 10% increase for heavy rain *)
  else factor.

(** Temperature effects (extreme temperatures increase consumption) *)
Definition temperature_step (temp : number) (factor : number) : number :=
  if lt temp (dec 15 0) || gt temp (dec 35 0)
  then mul factor (dec 103 2)      (* 3% increase for extreme temperatures *)
  else factor.

(** Wind effects *)
Definition wind_step (windSpeed : number) (factor : number) : number :=
  if gt windSpeed (dec 15 0)
  then mul factor (dec 102 2)      (* 2% increase for strong winds *)
  else factor.

(** [weatherData] is [None] for a null or undefined argument. *)
Definition getWeatherAdjustmentFactor (weatherData : option weather_data)
  : completion number :=
  try_catch
    (let factor := dec 10 1 in
     let factor :=
       match weatherData with
       | Some wd =>
           match current wd with
           | Some cur =>
               let condition :=
                 str_or (option_map toLowerCase (condition cur)) "" in
               let factor := rain_step condition factor in
               let temp := num_or (temperature cur) (dec 25 0) in
               let factor := temperature_step temp factor in
               let windSpeed := num_or (windSpeed cur) (dec 0 0) in
               wind_step windSpeed factor
           | None => factor
           end
       | None => factor
       end in
     Return factor)
    (fun _ => Return (dec 10 1)).

End BmkgService.

(* ================================================================== *)
(** ** The directions service: [estimateRouteAdjustments] *)
(* ================================================================== *)

Module DirectionsService.
Import JS.

Record distance_info : Type := { km : number }.
Record duration_info : Type := { hours : number }.

(** The part of [routeData] the estimator reads. *)
Record route_data : Type := {
  warnings : option (list string);
  distance : option distance_info;
  duration : option duration_info
}.

Record adjustments : Type := {
  traffic : number;
  terrain : number;
  urban : number
}.

Definition set_traffic (a : adjustments) (v : number) : adjustments :=
  {| traffic := v; terrain := terrain a; urban := urban a |}.

Definition set_urban (a : adjustments) (v : number) : adjustments :=
  {| traffic := traffic a; terrain := terrain a; urban := v |}.

Definition no_adjustments : adjustments :=
  {| traffic := dec 10 1; terrain := dec 10 1; urban := dec 10 1 |}.

(** The callback of [warnings.some(...)]. *)
Definition is_traffic_warning (warning : string) : bool :=
  includes (toLowerCase warning) "traffic" ||
  includes (toLowerCase warning) "congestion".

Definition estimateRouteAdjustments (routeData : route_data) (mode : string)
  : completion adjustments :=
  try_catch
    (let adjustments := no_adjustments in
     (* Analyze route warnings for traffic conditions *)
     let adjustments :=
       match warnings routeData with
       | Some ws =>
           let hasTrafficWarning := existsb is_traffic_warning ws in
           if hasTrafficWarning
           then set_traffic adjustments (dec 11 1)   (* 10% increase for traffic *)
           else adjustments
       | None => adjustments
       end in
     (* Estimate urban vs highway based on duration vs distance ratio *)
     d <- member (distance routeData) ;;
     h <- member (duration routeData) ;;
     let avgSpeed := div (km d) (hours h) in
     let adjustments :=
       if lt avgSpeed (dec 30 0)
       then set_urban adjustments (dec 115 2)   (* Urban driving increases consumption *)
       else if gt avgSpeed (dec 80 0)
       then set_urban adjustments (dec 95 2)    (* Highway driving can be more efficient *)
       else adjustments in
     Return adjustments)
    (fun _ => Return no_adjustments).

End DirectionsService.

(* ================================================================== *)
(** ** The specification's vocabulary *)
(* ================================================================== *)

Module Spec.
Import JS Config Calculations.

(** The fixed mode order: car, bus, motorcycle, intercity rail,
    high-speed rail. *)
Definition mode_order : list string :=
  ["mobil"; "bus"; "motor"; "ka_argo"; "kcic"].

(** The all-default scenario: traffic normal, weather normal, load factor
    standard, energy source fossil fuel. *)
Definition default_scenario : params :=
  {| traffic := Some "normal"; cuaca := Some "normal";
     loadFactor := Some "standard"; energy := Some "bahan_bakar";
     tollOption := Some "with_tolls" |}.

(** The multiplier table of the adjustment-factor resolver, row by row. *)
Definition applicable_multipliers (p : params) : list number :=
  (if strict_eq (traffic p) "padat" then [dec 110 2] else []) ++
  (if strict_eq (traffic p) "sangat_padat" then [dec 120 2] else []) ++
  (if strict_eq (cuaca p) "hujan_ringan" then [dec 105 2] else []) ++
  (if strict_eq (cuaca p) "hujan_lebat" then [dec 110 2] else []) ++
  (if strict_eq (loadFactor p) "peak" then [dec 115 2] else []).

(** The product of a list of multipliers over a base of 1.0. *)
Definition product_over_base (ms : list number) : number :=
  fold_left mul ms (dec 10 1).

(** The base rate and the emission factor the calculators multiply by. *)
Definition baseRate (mode : string) : number :=
  ToNumber (or_else (get consumptionRates mode) (VNumber (dec 0 0))).

Definition emissionFactorApplied (energySource : string) : number :=
  ToNumber (or_else (get emissionFactors energySource)
                    (get emissionFactors "bahan_bakar")).

(** Display rounding to [f] decimals. *)
Definition round_to (f : nat) (x : number) : number := parseFloat (toFixed f x).

(** The orchestrator always returns: its record, as a function. *)
Definition result_of (m : string) (d : number) (p : params) : result :=
  match calculateComprehensiveEmission m d p with
  | Return r => r
  | Throw _ =>
      {| mode := m; distance := d; fuelConsumption := NaN; emission := NaN;
         energySource := ""; scenario := p |}
  end.

(** A weather snapshot as the caller holds it, and the argument the weather
    service receives for it. *)
Record WeatherSnapshot : Type := {
  temperatureC : number;
  humidityPct : number;
  windSpeedKmh : number;
  conditionText : string
}.

Definition weather_data_of (w : WeatherSnapshot) : option BmkgService.weather_data :=
  Some {| BmkgService.current :=
            Some {| BmkgService.condition := Some (conditionText w);
                    BmkgService.temperature := Some (temperatureC w);
                    BmkgService.windSpeed := Some (windSpeedKmh w) |} |}.

(** The temperature and wind rows of the weather table. *)
Definition temperature_multipliers (w : WeatherSnapshot) : list number :=
  if lt (temperatureC w) (dec 15 0) || gt (temperatureC w) (dec 35 0)
  then [dec 103 2] else [].

Definition wind_multipliers (w : WeatherSnapshot) : list number :=
  if gt (windSpeedKmh w) (dec 15 0) then [dec 102 2] else [].

(** The rain rows as the specification words them: "light rain", else
    "heavy rain" or a generic "rain". *)
Definition rain_multipliers_as_specified (w : WeatherSnapshot) : list number :=
  let text := toLowerCase (conditionText w) in
  if includes text "light rain" then [dec 105 2]
  else if includes text "heavy rain" || includes text "rain" then [dec 110 2]
  else [].

Definition deriveFromWeather_as_specified (w : WeatherSnapshot) : number :=
  product_over_base
    (rain_multipliers_as_specified w ++ temperature_multipliers w ++ wind_multipliers w).

(** The rain rows with the keywords the service looks for: "hujan ringan"
    or "light rain", else "hujan lebat", "heavy rain" or a generic
    "hujan". *)
Definition rain_multipliers (text : string) : list number :=
  if includes text "hujan ringan" || includes text "light rain" then [dec 105 2]
  else if includes text "hujan lebat" || includes text "heavy rain"
          || includes text "hujan" then [dec 110 2]
  else [].

Definition weather_multipliers (w : WeatherSnapshot) : list number :=
  rain_multipliers (toLowerCase (conditionText w))
  ++ temperature_multipliers w ++ wind_multipliers w.

Definition is_zero (x : number) : bool :=
  match x with
  | S754_zero _ => true
  | _ => false
  end.

(** The snapshot of the specification's example: 40 degrees, wind 20,
    "heavy rain". *)
Definition hot_windy_heavy_rain : WeatherSnapshot :=
  {| temperatureC := dec 40 0; humidityPct := dec 80 0;
     windSpeedKmh := dec 20 0; conditionText := "heavy rain" |}.

(** The largest product of the weather table, 1.10 * 1.03 * 1.02 as the
    engine computes it, is the binary64 number 5204629945366989 * 2^-52,
    printed 1.1556600000000004. *)
Definition max_weather_factor : number :=
  mul (mul (mul (dec 10 1) (dec 110 2)) (dec 103 2)) (dec 102 2).

(** [text] contains [key], letter case ignored. *)
Definition contains_ci (text key : string) : Prop :=
  exists pre mid suf,
    text = pre ++ mid ++ suf /\ toLowerCase mid = toLowerCase key.

(** A route summary and the route data the estimator receives for it. *)
Record RouteSummary : Type := {
  distanceKm : number;
  durationHours : number;
  routeWarnings : list string
}.

Definition route_data_of (s : RouteSummary) : DirectionsService.route_data :=
  {| DirectionsService.warnings := Some (routeWarnings s);
     DirectionsService.distance := Some {| DirectionsService.km := distanceKm s |};
     DirectionsService.duration := Some {| DirectionsService.hours := durationHours s |} |}.

Definition has_traffic_warning (s : RouteSummary) : Prop :=
  exists w, In w (routeWarnings s) /\
            (contains_ci w "traffic" \/ contains_ci w "congestion").

Definition averageSpeed (s : RouteSummary) : number :=
  div (distanceKm s) (durationHours s).

(** A snapshot whose text is the bare English word. *)
Definition generic_rain : WeatherSnapshot :=
  {| temperatureC := dec 25 0; humidityPct := dec 80 0;
     windSpeedKmh := dec 0 0; conditionText := "rain" |}.

(** A snapshot at the freezing point. *)
Definition freezing : WeatherSnapshot :=
  {| temperatureC := dec 0 0; humidityPct := dec 80 0;
     windSpeedKmh := dec 0 0; conditionText := "cerah" |}.

(** A snapshot with the Indonesian text for heavy rain. *)
Definition hujan_lebat_day : WeatherSnapshot :=
  {| temperatureC := dec 25 0; humidityPct := dec 80 0;
     windSpeedKmh := dec 0 0; conditionText := "hujan lebat" |}.

(** Whether the condition text mentions "rain" without any keyword the
    service looks for. *)
Definition unmatched_rain (w : WeatherSnapshot) : bool :=
  let text := toLowerCase (conditionText w) in
  includes text "rain"
  && negb (includes text "hujan ringan" || includes text "light rain")
  && negb (includes text "hujan lebat" || includes text "heavy rain"
           || includes text "hujan").

(** What applying both rain multipliers would give. *)
Definition double_rain_product : number :=
  mul (mul (dec 10 1) (dec 105 2)) (dec 110 2).

(** Whether the condition text of the weather data, lower-cased, contains
    "light rain". *)
Definition mentions_light_rain (wd : option BmkgService.weather_data) : bool :=
  match wd with
  | Some d =>
      match BmkgService.current d with
      | Some cur =>
          match BmkgService.condition cur with
          | Some c => includes (toLowerCase c) "light rain"
          | None => false
          end
      | None => false
      end
  | None => false
  end.

End Spec.

(* ================================================================== *)
(** ** The directions service: [decodePolyline] *)
(* ================================================================== *)

Module Polyline.
Import JS.

(** A string as [charCodeAt] sees it: its UTF-16 code units. *)
Definition code_units : Type := list Z.

(** The code units of a string of ASCII characters. *)
Fixpoint units_of_string (s : string) : code_units :=
  match s with
  | EmptyString => []
  | String c t => Z.of_nat (nat_of_ascii c) :: units_of_string t
  end.

(** [ToInt32]: the signed 32-bit integer congruent to [z]. *)
Definition to_int32 (z : Z) : Z := (z + 2 ^ 31) mod 2 ^ 32 - 2 ^ 31.

(** [x << s] on 32-bit integers; only the low five bits of the shift count
    are used. *)
Definition shl32 (x s : Z) : Z := to_int32 (x * 2 ^ (s mod 32)).

(** Number addition and the number of an integer. *)
Definition add : number -> number -> number := SFadd prec emax.
Definition of_Z (z : Z) : number := binary_normalize prec emax z 0 false.

Record point : Type := { lat : number; lng : number }.

(** One [do { ... } while (byte >= 0x20)] loop, started with the given
    [shift] and [result]: the value read and the text after it.  Past the
    end of the string [charCodeAt] yields NaN, which adds no bits and ends
    the loop. *)
Fixpoint read_value (s : code_units) (shift result : Z) : Z * code_units :=
  match s with
  | [] => (result, [])
  | c :: rest =>
      let byte := c - 63 in
      let result := Z.lor result (shl32 (Z.land byte 31) shift) in
      if 32 <=? byte then read_value rest (shift + 5) result
      else (result, rest)
  end.

(** [(result & 1) ? ~(result >> 1) : (result >> 1)].  [result] is what
    [read_value] returns: a 32-bit integer, built by [|=] from 32-bit
    shifts, on which [&], [>>] and [~] are the operations below. *)
Definition delta_of (result : Z) : Z :=
  if Z.land result 1 =? 0 then Z.shiftr result 1
  else Z.lnot (Z.shiftr result 1).

(** The [while (index < polyline.length)] loop, [s] being the text from
    [index] on.  Every round reads at least one character, so
    [length s] rounds always suffice ([fuel] bounds the rounds). *)
Fixpoint decode_loop (fuel : nat) (s : code_units) (lat lng : number)
  : list point :=
  match fuel with
  | O => []
  | S fuel' =>
      match s with
      | [] => []
      | _ :: _ =>
          let '(result, s1) := read_value s 0 0 in
          let deltaLat := delta_of result in
          let lat := add lat (of_Z deltaLat) in
          let '(result, s2) := read_value s1 0 0 in
          let deltaLng := delta_of result in
          let lng := add lng (of_Z deltaLng) in
          {| lat := div lat (dec 100000 0); lng := div lng (dec 100000 0) |}
            :: decode_loop fuel' s2 lat lng
      end
  end.

(** [polyline] is [None] for an undefined or null argument. *)
Definition decodePolyline (polyline : option code_units)
  : completion (list point) :=
  try_catch
    (match polyline with
     | None | Some [] => Return []
     | Some s => Return (decode_loop (List.length s) s (dec 0 0) (dec 0 0))
     end)
    (fun _ => Return []).

(** A complete value as the reader sees it: characters whose [byte] asks
    for more (at least 0x20), then one that does not. *)
Fixpoint complete_value (s : code_units) : bool :=
  match s with
  | [] => false
  | [c] => c - 63 <? 32
  | c :: rest => (32 <=? c - 63) && complete_value rest
  end.

(** The value a text holds. *)
Definition value_of (s : code_units) : Z := fst (read_value s 0 0).

(** The points the loop emits for a list of (latitude, longitude) value
    pairs, starting from the running sums [lat] and [lng]. *)
Fixpoint points_of (pairs : list (code_units * code_units)) (lat lng : number)
  : list point :=
  match pairs with
  | [] => []
  | (a, b) :: rest =>
      let lat := add lat (of_Z (delta_of (value_of a))) in
      let lng := add lng (of_Z (delta_of (value_of b))) in
      {| lat := div lat (dec 100000 0); lng := div lng (dec 100000 0) |}
        :: points_of rest lat lng
  end.

(** The running sums after a list of value pairs. *)
Fixpoint sums_after (pairs : list (code_units * code_units)) (lat lng : number)
  : number * number :=
  match pairs with
  | [] => (lat, lng)
  | (a, b) :: rest =>
      sums_after rest (add lat (of_Z (delta_of (value_of a))))
                      (add lng (of_Z (delta_of (value_of b))))
  end.

(** The text of a list of value pairs. *)
Fixpoint text_of (pairs : list (code_units * code_units)) : code_units :=
  match pairs with
  | [] => []
  | (a, b) :: rest => (a ++ b ++ text_of rest)%list
  end.

(** The characters of a list of 5-bit chunks, low chunk first: every chunk
    but the last is sent with the continuation bit 0x20. *)
Fixpoint chunk_chars (chunks : list Z) : code_units :=
  match chunks with
  | [] => []
  | [c] => [c + 63]
  | c :: rest => (c + 32 + 63) :: chunk_chars rest
  end.

(** The number a list of 5-bit chunks spells, low chunk first. *)
Fixpoint chunk_number (chunks : list Z) : Z :=
  match chunks with
  | [] => 0
  | c :: rest => c + 32 * chunk_number rest
  end.

(** Whether every pair consists of two complete values. *)
Definition complete_pairs (pairs : list (code_units * code_units)) : bool :=
  forallb (fun p => complete_value (fst p) && complete_value (snd p)) pairs.

(** The six values of the documented example
    [_p~iF~ps|U_ulLnnqC_mqNvxq`@]. *)
Definition documented_pairs : list (code_units * code_units) :=
  [ (units_of_string "_p~iF", units_of_string "~ps|U");
    (units_of_string "_ulL",  units_of_string "nnqC");
    (units_of_string "_mqN",  units_of_string "vxq`@") ].

End Polyline.

(* ================================================================== *)
(** ** App: [calculateEmissions] *)
(* ================================================================== *)

Module App.
Import JS Config Calculations.

(** Static distances (km) for train services *)
Definition staticDistances : list (string * number) :=
  [ ("ka_argo", dec 150 0);   (* Bandung-Jakarta via KA Argo *)
    ("kcic",    dec 142 0) ]. (* Bandung-Jakarta via KCIC *)

(** What the component's code can throw: App.jsx imports [staticDistances]
    from the configuration but not [routeCoordinates], so reading that
    identifier is a ReferenceError; the engine's functions throw the errors
    of [JS.error]. *)
Inductive exception : Type :=
| ReferenceError (identifier : string)
| Thrown (e : error).

Inductive attempt (A : Type) : Type :=
| Done (a : A)
| Raised (ex : exception).
Arguments Done {A} a.
Arguments Raised {A} ex.

Definition and_then {A B} (c : attempt A) (k : A -> attempt B) : attempt B :=
  match c with
  | Done a => k a
  | Raised ex => Raised ex
  end.

(** A call of one of the engine's functions. *)
Definition call {A} (c : completion A) : attempt A :=
  match c with
  | Return a => Done a
  | Throw e => Raised (Thrown e)
  end.

(** The transport mode the selector hands over: an id, or in
    multiple-choice mode the array of the ids ticked. *)
Inductive selection : Type :=
| One (id : string)
| Many (ids : list string).

(** [!transportMode]: only the empty string is falsy. *)
Definition selected (t : selection) : bool :=
  match t with
  | One EmptyString => false
  | _ => true
  end.

(** The property key a selection turns into: an array is joined with
    commas. *)
Definition key_of (t : selection) : string :=
  match t with
  | One id => id
  | Many ids => String.concat "," ids
  end.

(** [['ka_argo', 'kcic'].includes(transportMode)] *)
Definition is_rail (t : selection) : bool :=
  match t with
  | One id => existsb (String.eqb id) ["ka_argo"; "kcic"]
  | Many _ => false
  end.

(** A result record as the App holds it; [mode] is whatever was passed. *)
Record record : Type := {
  mode : selection;
  distance : number;
  fuelConsumption : number;
  emission : number;
  energySource : string;
  scenario : params
}.

(** [calculateComprehensiveEmission(transportMode, ...)] for a selection. *)
Definition computeFor (t : selection) (distance : number) (scenario : params)
  : completion record :=
  r <- calculateComprehensiveEmission (key_of t) distance scenario ;;
  Return {| mode := t;
            distance := Calculations.distance r;
            fuelConsumption := Calculations.fuelConsumption r;
            emission := Calculations.emission r;
            energySource := Calculations.energySource r;
            scenario := Calculations.scenario r |}.

(** [{ ...result, fuelConsumption: result.fuelConsumption * w,
       emission: result.emission * w }] *)
Definition apply_weather (w : number) (r : record) : record :=
  {| mode := mode r;
     distance := distance r;
     fuelConsumption := mul (fuelConsumption r) w;
     emission := mul (emission r) w;
     energySource := energySource r;
     scenario := scenario r |}.

(** What a run leaves in the component's state. *)
Inductive outcome : Type :=
| Skipped                                            (* returned at once *)
| Computed (distance : number) (data : list record)  (* setDistance, setCalculationData *)
| Failed (ex : exception).                           (* setError, from the catch block *)

(** The distance step.  The branch for road vehicles starts with
    [const routeData = routeCoordinates[route]]; the identifier is unbound
    in App.jsx, so the branch throws there and what follows it - the call of
    the directions service and the fallback distance - is never reached. *)
Definition currentDistance (route : string) (transportMode : selection)
  (scenario : params) : attempt number :=
  if is_rail transportMode then
    (* Use static distance for trains *)
    Done (ToNumber (or_else (get staticDistances (key_of transportMode))
                            (VNumber (dec 150 0))))
  else
    (* Use Google Directions API for road vehicles *)
    Raised (ReferenceError "routeCoordinates").

(** The weather factor the App asks for:
    [getWeatherAdjustmentFactor({ current: { condition: scenario.cuaca } })]. *)
Definition weatherAdjustment (scenario : params) : completion number :=
  BmkgService.getWeatherAdjustmentFactor
    (Some {| BmkgService.current :=
               Some {| BmkgService.condition := cuaca scenario;
                       BmkgService.temperature := None;
                       BmkgService.windSpeed := None |} |}).

Definition calculateEmissions (route : string) (transportMode : selection)
  (scenario : params) (mode : string) : outcome :=
  if String.eqb route "" || negb (selected transportMode)
  then Skipped
  else
    let body :=
      let currentScenario := scenario in
      (* Get distance based on transport mode *)
      and_then (currentDistance route transportMode scenario)
        (fun currentDistance =>
      (* Calculate emissions based on mode *)
      and_then
        (call
           (if String.eqb mode "aktual" then
              (* Single mode calculation *)
              result <- computeFor transportMode currentDistance currentScenario ;;
              Return [result]
            else
              (* Multiple modes for comparison *)
              let modes := ["mobil"; "bus"; "motor"; "ka_argo"; "kcic"] in
              map_completion
                (fun mode => computeFor (One mode) currentDistance currentScenario)
                modes))
        (fun results =>
      (* Apply weather adjustments *)
      and_then (call (weatherAdjustment scenario))
        (fun weatherAdjustment =>
      let results := map (apply_weather weatherAdjustment) results in
      Done (currentDistance, results)))) in
    match body with
    | Done (d, results) => Computed d results
    | Raised ex => Failed ex
    end.

End App.

(* ================================================================== *)
(** ** utils/errorHandler.js: [validateParams] *)
(* ================================================================== *)

Module ErrorHandler.
Import JS.

(** The values a parameter object may hold. *)
Inductive param_value : Type :=
| PUndefined
| PNull
| PBool (b : bool)
| PNumber (x : number)
| PString (s : string)
| PObject.

Definition truthy (v : param_value) : bool :=
  match v with
  | PUndefined | PNull => false
  | PBool b => b
  | PNumber x => ToBoolean (VNumber x)
  | PString EmptyString => false
  | PString _ => true
  | PObject => true
  end.

(** [params[param]]: an own property, else an inherited member, else
    [undefined]. *)
Fixpoint own_value (params : list (string * param_value)) (key : string)
  : option param_value :=
  match params with
  | [] => None
  | (k, v) :: rest => if String.eqb k key then Some v else own_value rest key
  end.

Definition lookup (params : list (string * param_value)) (key : string)
  : param_value :=
  match own_value params key with
  | Some v => v
  | None =>
      if existsb (String.eqb key) object_prototype_keys then PObject
      else PUndefined
  end.

(** The object [validateParams] returns; [error] and [missing] are absent
    from the valid answer. *)
Record validation : Type := {
  valid : bool;
  error : option string;
  missing : option (list string)
}.

Definition validateParams (params : list (string * param_value))
  (required : list string) : validation :=
  let missing := filter (fun param => negb (truthy (lookup params param))) required in
  if (0 <? List.length missing)%nat then
    let message :=
      "Parameter yang diperlukan tidak lengkap: " ++ String.concat ", " missing in
    {| valid := false; error := Some message; missing := Some missing |}
  else
    {| valid := true; error := None; missing := None |}.

(** *** [retryOperation]

    The operation is a step on the state of the world: it settles with a
    value or with an error and leaves a new state.  The timer is not
    modelled; the waits are counted.  [maxRetries] is an integer. *)
Inductive settled (A E : Type) : Type :=
| Fulfilled (a : A)
| Rejected (e : E).
Arguments Fulfilled {A E} a.
Arguments Rejected {A E} e.

(** The [for (let i = 0; i <= maxRetries; i++)] loop with [rounds]
    iterations left, that is at [i = maxRetries + 1 - rounds]; the test
    [i < maxRetries] holds when another round follows.  After the loop
    [lastError] is thrown; it is [None] (undefined) when no round ran. *)
Fixpoint retry_rounds {W A E} (rounds : nat)
  (operation : W -> settled A E * W) (world : W)
  (lastError : option E) (waits : nat)
  : settled A (option E) * W * nat :=
  match rounds with
  | O => (Rejected lastError, world, waits)
  | S rest =>
      match operation world with
      | (Fulfilled a, world') => (Fulfilled a, world', waits)
      | (Rejected error, world') =>
          let waits :=
            match rest with
            | O => waits
            | S _ => S waits
            end in
          retry_rounds rest operation world' (Some error) waits
      end
  end.

(** The settlement of the promise, the state of the world and the number
    of waits. *)
Definition retryOperation {W A E} (operation : W -> settled A E * W)
  (maxRetries : Z) (world : W) : settled A (option E) * W * nat :=
  retry_rounds (Z.to_nat (maxRetries + 1)) operation world None 0%nat.

End ErrorHandler.

(* ================================================================== *)
(** ** utils/calculations.js: [formatNumber] *)
(* ================================================================== *)

Module Format.
Import JS.

(** [parseFloat(value)] for a number: its decimal text reads back as the
    same number, the negative zero as zero. *)
Definition parseFloat_number (value : number) : number :=
  match value with
  | S754_zero _ => pos_zero
  | _ => value
  end.

(** [toFixed] with its range check: fewer than 0 or more than 100 digits
    is a RangeError. *)
Definition toFixed_checked (decimals : Z) (x : number) : completion numeral :=
  if (decimals <? 0) || (100 <? decimals) then Throw RangeError
  else Return (toFixed (Z.to_nat decimals) x).

Definition formatNumber (value : number) (decimals : Z) : completion numeral :=
  toFixed_checked decimals (parseFloat_number value).

End Format.

(* ================================================================== *)
(** ** components/Forecast.jsx: [getWeatherAdjustment] *)
(* ================================================================== *)

Module Forecast.
Import JS.

(** The object the function returns; an inherited member has neither
    field. *)
Record adjustment : Type := {
  text : option string;
  factor : option number
}.

Definition adjustments : list (string * (string * number)) :=
  [ ("cerah",        ("Kondisi ideal",   dec 10 1));
    ("clear",        ("Kondisi ideal",   dec 10 1));
    ("berawan",      ("Kondisi baik",    dec 10 1));
    ("cloudy",       ("Kondisi baik",    dec 10 1));
    ("hujan ringan", ("+5% konsumsi",    dec 105 2));
    ("light rain",   ("+5% konsumsi",    dec 105 2));
    ("hujan lebat",  ("+10% konsumsi",   dec 11 1));
    ("heavy rain",   ("+10% konsumsi",   dec 11 1));
    ("normal",       ("Kondisi standar", dec 10 1)) ].

Fixpoint own_entry (table : list (string * (string * number))) (key : string)
  : option (string * number) :=
  match table with
  | [] => None
  | (k, v) :: rest => if String.eqb k key then Some v else own_entry rest key
  end.

Definition standard : adjustment :=
  {| text := Some "Kondisi standar"; factor := Some (dec 10 1) |}.

(** [adjustments[condition?.toLowerCase()] || { ... }]; an undefined
    condition looks up the key "undefined". *)
Definition getWeatherAdjustment (condition : option string) : adjustment :=
  let key :=
    match condition with
    | Some c => toLowerCase c
    | None => "undefined"
    end in
  match own_entry adjustments key with
  | Some (t, f) => {| text := Some t; factor := Some f |}
  | None =>
      if existsb (String.eqb key) object_prototype_keys
      then {| text := None; factor := None |}
      else standard
  end.

End Forecast.

(* ================================================================== *)
(** ** Vocabulary for the further properties *)
(* ================================================================== *)

Module Extra.
Import JS Config Calculations Spec.

(** A number that is not NaN and carries the sign [s]. *)
Definition signed_as (s : bool) (x : number) : Prop :=
  match x with
  | S754_zero s' | S754_infinity s' | S754_finite s' _ _ => s' = s
  | S754_nan => False
  end.

(** [0 <= x] *)
Definition non_negative (x : number) : bool := le (dec 0 0) x.

(** Whether a property name is one every object inherits. *)
Definition inherited_key (k : string) : bool :=
  existsb (String.eqb k) object_prototype_keys.

(** The scenario with one field replaced. *)
Definition with_traffic (p : params) (v : option string) : params :=
  {| traffic := v; cuaca := cuaca p; loadFactor := loadFactor p;
     energy := energy p; tollOption := tollOption p |}.

Definition with_cuaca (p : params) (v : option string) : params :=
  {| traffic := traffic p; cuaca := v; loadFactor := loadFactor p;
     energy := energy p; tollOption := tollOption p |}.

Definition with_loadFactor (p : params) (v : option string) : params :=
  {| traffic := traffic p; cuaca := cuaca p; loadFactor := v;
     energy := energy p; tollOption := tollOption p |}.

(** The orchestrator's record for a selection, as the App stores it. *)
Definition engine_record (t : App.selection) (d : number) (p : params)
  : App.record :=
  let r := result_of (App.key_of t) d p in
  {| App.mode := t;
     App.distance := distance r;
     App.fuelConsumption := fuelConsumption r;
     App.emission := emission r;
     App.energySource := energySource r;
     App.scenario := scenario r |}.

(** The orchestrator's records a run of the App starts from. *)
Definition engine_records (t : App.selection) (d : number) (p : params)
  (mode : string) : list App.record :=
  if String.eqb mode "aktual" then [engine_record t d p]
  else map (fun m => engine_record (App.One m) d p) mode_order.

(** The rain multiplier a scenario's [cuaca] value selects in the weather
    service. *)
Definition cuaca_factor (p : params) : number :=
  product_over_base
    (rain_multipliers (str_or (option_map toLowerCase (cuaca p)) "")).

(** An operation that follows a script: its [k]-th call settles as
    [script k]; the state of the world is the number of calls made. *)
Definition scripted {A E} (script : nat -> ErrorHandler.settled A E)
  : nat -> ErrorHandler.settled A E * nat :=
  fun calls => (script calls, S calls).

(** A script that fails twice and then succeeds. *)
Definition third_time_lucky : nat -> ErrorHandler.settled string string :=
  fun k => match k with
           | O | S O => ErrorHandler.Rejected "timeout"
           | _ => ErrorHandler.Fulfilled "ok"
           end.

(** A script that always fails, with the number of the call. *)
Definition always_failing : nat -> ErrorHandler.settled string nat :=
  fun k => ErrorHandler.Rejected k.

(** The weather data the forecast card's condition stands for. *)
Definition condition_only (c : string) : option BmkgService.weather_data :=
  Some {| BmkgService.current :=
            Some {| BmkgService.condition := Some c;
                    BmkgService.temperature := None;
                    BmkgService.windSpeed := None |} |}.

(** The static distance of a train. *)
Definition static_distance (id : string) : number :=
  if String.eqb id "ka_argo" then dec 150 0 else dec 142 0.

(** Whether [validateParams] is to report a name: its own value is
    undefined, null, false, a zero, NaN or the empty string, or it has no
    own value and is not a member every object inherits. *)
Definition reported_missing (params : list (string * ErrorHandler.param_value))
  (k : string) : bool :=
  match ErrorHandler.own_value params k with
  | Some ErrorHandler.PUndefined => true
  | Some ErrorHandler.PNull => true
  | Some (ErrorHandler.PBool false) => true
  | Some (ErrorHandler.PNumber (S754_zero _)) => true
  | Some (ErrorHandler.PNumber S754_nan) => true
  | Some (ErrorHandler.PString EmptyString) => true
  | Some _ => false
  | None => negb (inherited_key k)
  end.

(** The factor the resolver returns. *)
Definition factor_of (p : params) : number :=
  match getAdjustmentFactor p with
  | Return f => f
  | Throw _ => NaN
  end.

End Extra.

(* ================================================================== *)
(** ** The number model on known values *)
(* ================================================================== *)

Import JS Config Calculations Spec.

(** 0.1 is the binary64 number 0x1.999999999999ap-4. *)
Example dec_one_tenth : dec 1 1 = S754_finite false 7205759403792794 (-56).
Proof. reflexivity. Qed.

(** 2.6 is 0x1.4cccccccccccdp+1. *)
Example dec_2_6 : dec 26 1 = S754_finite false 5854679515581645 (-51).
Proof. reflexivity. Qed.

(** Every constant of the two tables is a canonical binary64 number. *)
Example tables_valid_binary :
  forallb (fun kv => valid_binary prec emax (snd kv))
          (consumptionRates ++ emissionFactors) = true.
Proof. reflexivity. Qed.

Example dec_150 : dec 150 0 = S754_finite false 5277655813324800 (-45).
Proof. reflexivity. Qed.

(** 0.1 * 3 is 0.30000000000000004, not 0.3. *)
Example one_tenth_times_three :
  mul (dec 1 1) (dec 3 0) = S754_finite false 5404319552844596 (-54) /\
  num_eq (mul (dec 1 1) (dec 3 0)) (dec 3 1) = false.
Proof. split; reflexivity. Qed.

(** [(1.005).toFixed(2)] is "1.00", [(2.5).toFixed(0)] is "3",
    [(-2.5).toFixed(0)] is "-3" and [(-0.0001).toFixed(3)] is "-0.000". *)
Example toFixed_known_values :
  toFixed 2 (dec 1005 3) = StrFixed false 100 2 /\
  toFixed 0 (dec 25 1) = StrFixed false 3 0 /\
  toFixed 0 (dec (-25) 1) = StrFixed true 3 0 /\
  toFixed 3 (dec (-1) 4) = StrFixed true 0 3 /\
  toFixed 2 (dec (10 ^ 21) 0) = StrToString (dec (10 ^ 21) 0).
Proof. repeat split; vm_compute; reflexivity. Qed.

(** The digits [toFixed] prints are those of the nearest integer to
    [m * 2^e * 10^f], the larger one on a tie:
    [n - 1/2 <= m * 2^e * 10^f < n + 1/2]. *)
Lemma fixed_digits_nearest (m : positive) (e : Z) (f : nat) :
  e < 0 ->
  let n := fixed_digits m e f in
  let x := Zpos m * 10 ^ Z.of_nat f in
  2 * n * 2 ^ (- e) - 2 ^ (- e) <= 2 * x < 2 * n * 2 ^ (- e) + 2 ^ (- e).
Proof.
  intros He n x. subst n x. unfold fixed_digits.
  destruct (Z.leb_spec 0 e) as [H|_]; [lia|].
  set (S := Zpos m * 10 ^ Z.of_nat f).
  assert (Hp : 0 < 2 ^ (- e)) by (apply Z.pow_pos_nonneg; lia).
  replace (2 ^ (- e + 1)) with (2 * 2 ^ (- e)) by (rewrite Z.pow_add_r; lia).
  set (P := 2 ^ (- e)) in *.
  pose proof (Z.mul_div_le (2 * S + P) (2 * P) ltac:(lia)) as Hlo.
  pose proof (Z.mul_succ_div_gt (2 * S + P) (2 * P) ltac:(lia)) as Hhi.
  set (q := (2 * S + P) / (2 * P)) in *.
  split; nia.
Qed.

(* ================================================================== *)
(** ** Properties of utils/calculations.js *)
(* ================================================================== *)

(** Every call of the resolver returns; it never throws. *)
Lemma getAdjustmentFactor_returns (p : params) :
  exists f, getAdjustmentFactor p = Return f.
Proof. unfold getAdjustmentFactor. eauto. Qed.

(** The shape of the fuel-consumption result, for every argument. *)
Lemma calculateFuelConsumption_eq (m : string) (d : number) (p : params) :
  exists a, getAdjustmentFactor p = Return a /\
            calculateFuelConsumption m d p = Return (mul (mul (baseRate m) d) a).
Proof.
  unfold calculateFuelConsumption.
  destruct (getAdjustmentFactor_returns p) as [a Ha].
  exists a. rewrite Ha. split; reflexivity.
Qed.

(** C1 (the code at the failing input): with energy source
    [listrik_renewable] the emission calculator does not return 0.  The
    table entry 0 is falsy, so the [||] fallback replaces it by the
    fossil-fuel factor 2.6: 10 liters give 26 kg, every fuel consumption gives
    what fossil fuel gives, and the car over 150 km gets 26.91 kg. *)
Theorem calculateEmission_renewable_uses_fossil_factor :
  calculateEmission (dec 10 0) "listrik_renewable" = Return (dec 26 0) /\
  (forall f, calculateEmission f "listrik_renewable"
             = calculateEmission f "bahan_bakar") /\
  (exists r,
      calculateComprehensiveEmission "mobil" (dec 150 0)
        {| traffic := Some "normal"; cuaca := Some "normal";
           loadFactor := Some "standard"; energy := Some "listrik_renewable";
           tollOption := Some "with_tolls" |} = Return r /\
      energySource r = "listrik_renewable" /\
      emission r = dec 2691 2 /\
      num_eq (emission r) (dec 0 0) = false).
Proof.
  split; [vm_compute; reflexivity|].
  split; [intro f; reflexivity|].
  eexists. split; [vm_compute; reflexivity|].
  repeat split.
Qed.

(** C2 (counterexample): for the distance -1 the fuel-consumption calculator
    returns the number -0.069 and throws nothing, and the orchestrator
    returns a record with negative fuel consumption and emission. *)
Lemma negative_distance_is_not_rejected :
  lt (dec (-1) 0) (dec 0 0) = true /\
  calculateFuelConsumption "mobil" (dec (-1) 0) no_params = Return (dec (-69) 3) /\
  ~ (exists e, calculateFuelConsumption "mobil" (dec (-1) 0) no_params = Throw e) /\
  (exists r, calculateComprehensiveEmission "mobil" (dec (-1) 0) no_params = Return r /\
             fuelConsumption r = dec (-69) 3 /\
             emission r = dec (-179) 3).
Proof.
  split; [reflexivity|].
  split; [vm_compute; reflexivity|].
  split.
  - intros [e He]. vm_compute in He. discriminate He.
  - eexists. split; [vm_compute; reflexivity|]. split; vm_compute; reflexivity.
Qed.

(** C2 (amended): for every distance, negative ones included, the
    fuel-consumption calculator returns normally, and what it returns is
    baseRate * distance * adjustmentFactor; the orchestrator returns a
    record as well.  Nothing is thrown. *)
Theorem calculateFuelConsumption_never_throws :
  forall (m : string) (d : number) (p : params),
    (exists a, getAdjustmentFactor p = Return a /\
               calculateFuelConsumption m d p
               = Return (mul (mul (baseRate m) d) a)) /\
    (forall e, calculateFuelConsumption m d p <> Throw e) /\
    (exists r, calculateComprehensiveEmission m d p = Return r) /\
    (forall e, calculateComprehensiveEmission m d p <> Throw e).
Proof.
  intros m d p.
  destruct (calculateFuelConsumption_eq m d p) as [a [Ha Hf]].
  split; [exists a; split; assumption|].
  split; [intros e He; rewrite Hf in He; discriminate He|].
  unfold calculateComprehensiveEmission. rewrite Hf. cbn [bind calculateEmission].
  split; [eexists; reflexivity|].
  intros e He. discriminate He.
Qed.

(** A string field cannot be strictly equal to two different literals. *)
Lemma strict_eq_true (s : option string) (lit : string) :
  strict_eq s lit = true -> s = Some lit.
Proof.
  destruct s as [v|]; cbn [strict_eq]; [|discriminate].
  intro H. apply String.eqb_eq in H. now subst.
Qed.

Lemma strict_eq_exclusive (s : option string) (a b : string) :
  String.eqb a b = false ->
  strict_eq s a = true -> strict_eq s b = false.
Proof.
  intros Hab Ha. apply strict_eq_true in Ha. subst s. exact Hab.
Qed.

(** The resolver in terms of its five tests. *)
Lemma getAdjustmentFactor_unfold (p : params) :
  getAdjustmentFactor p =
  Return
    (times_if (strict_eq (loadFactor p) "peak") (dec 115 2)
    (times_if (strict_eq (cuaca p) "hujan_lebat") (dec 11 1)
    (times_if (strict_eq (cuaca p) "hujan_ringan") (dec 105 2)
    (times_if (strict_eq (traffic p) "sangat_padat") (dec 12 1)
    (times_if (strict_eq (traffic p) "padat") (dec 11 1) (dec 1 0)))))).
Proof. reflexivity. Qed.

(** C3: for every scenario the resolver returns the product, over the base
    1.0, of the multipliers of the rows of the table that apply (1.10 for
    traffic padat, 1.20 for sangat_padat, 1.05 for cuaca hujan_ringan, 1.10
    for hujan_lebat, 1.15 for load factor peak); when no row applies the
    result is exactly 1.0, and so it is for the all-default scenario and for
    the empty object. *)
Theorem getAdjustmentFactor_is_product_of_multipliers :
  forall p : params,
    getAdjustmentFactor p = Return (product_over_base (applicable_multipliers p)) /\
    (applicable_multipliers p = [] -> getAdjustmentFactor p = Return (dec 10 1)) /\
    getAdjustmentFactor default_scenario = Return (dec 10 1) /\
    getAdjustmentFactor no_params = Return (dec 10 1).
Proof.
  intro p.
  assert (H : getAdjustmentFactor p
              = Return (product_over_base (applicable_multipliers p))).
  { rewrite getAdjustmentFactor_unfold. unfold applicable_multipliers.
    destruct (strict_eq (traffic p) "padat"),
             (strict_eq (traffic p) "sangat_padat"),
             (strict_eq (cuaca p) "hujan_ringan"),
             (strict_eq (cuaca p) "hujan_lebat"),
             (strict_eq (loadFactor p) "peak");
      vm_compute; reflexivity. }
  split; [exact H|].
  split; [intro E; rewrite H, E; reflexivity|].
  split; reflexivity.
Qed.

(** C9: for every scenario, whatever its fields hold, the resolver returns
    a factor between 1.0 and 1.518, and 1.518 is the product
    1.2 * 1.1 * 1.15 the worst scenario reaches. *)
Theorem getAdjustmentFactor_bounds :
  forall p : params,
    exists f,
      getAdjustmentFactor p = Return f /\
      le (dec 10 1) f = true /\
      le f (dec 1518 3) = true /\
      mul (mul (dec 12 1) (dec 11 1)) (dec 115 2) = dec 1518 3.
Proof.
  intro p. rewrite getAdjustmentFactor_unfold. eexists. split; [reflexivity|].
  pose proof (strict_eq_exclusive (traffic p) "padat" "sangat_padat" eq_refl) as Ht.
  pose proof (strict_eq_exclusive (cuaca p) "hujan_ringan" "hujan_lebat" eq_refl) as Hc.
  destruct (strict_eq (traffic p) "padat");
    [rewrite (Ht eq_refl)|destruct (strict_eq (traffic p) "sangat_padat")];
    (destruct (strict_eq (cuaca p) "hujan_ringan");
     [rewrite (Hc eq_refl)|destruct (strict_eq (cuaca p) "hujan_lebat")]);
    destruct (strict_eq (loadFactor p) "peak");
    vm_compute; repeat split.
Qed.

(** C6: the car over 150 km in the all-default scenario.  The fuel
    consumption 0.069 * 150 * 1.0 is displayed as 10.35 and the emission as
    26.91. *)
Theorem car_150_default_scenario :
  exists r,
    calculateComprehensiveEmission "mobil" (dec 150 0) default_scenario = Return r /\
    getAdjustmentFactor default_scenario = Return (dec 10 1) /\
    fuelConsumption r = round_to 3 (mul (mul (dec 69 3) (dec 150 0)) (dec 10 1)) /\
    fuelConsumption r = dec 1035 2 /\
    emission r = dec 2691 2 /\
    round_to 3 (mul (dec 1035 2) (dec 26 1)) = dec 2691 2 /\
    mode r = "mobil" /\ distance r = dec 150 0 /\ energySource r = "bahan_bakar".
Proof.
  eexists. split; [vm_compute; reflexivity|].
  repeat split; vm_compute; reflexivity.
Qed.

(** C7: for every mode, distance and scenario the orchestrator returns a
    record whose emission is the 3-decimal rounding of
    (baseRate * distance * adjustmentFactor) * emission factor, computed
    from the unrounded fuel consumption; the fuel consumption and distance
    fields are roundings of the unrounded values too.  The emission is not
    recomputed from the rounded fuel-consumption field: over 12.34 km by car
    the two differ (2.214 against 2.213). *)
Theorem calculateComprehensiveEmission_rounds_at_boundary :
  (forall (m : string) (d : number) (p : params),
      exists a r,
        getAdjustmentFactor p = Return a /\
        calculateComprehensiveEmission m d p = Return r /\
        let unrounded := mul (mul (baseRate m) d) a in
        emission r
        = round_to 3 (mul unrounded (emissionFactorApplied (energySource r))) /\
        fuelConsumption r = round_to 3 unrounded /\
        distance r = round_to 2 d /\
        energySource r = str_or (energy p) "bahan_bakar") /\
  (forall k, In k ["bahan_bakar"; "listrik_grid"; "biofuel"] ->
             own_property emissionFactors k = Some (emissionFactorApplied k)) /\
  (exists r,
      calculateComprehensiveEmission "mobil" (dec 1234 2) default_scenario = Return r /\
      emission r = dec 2214 3 /\
      round_to 3 (mul (fuelConsumption r) (emissionFactorApplied (energySource r)))
      = dec 2213 3).
Proof.
  split; [|split].
  - intros m d p.
    destruct (calculateFuelConsumption_eq m d p) as [a [Ha Hf]].
    exists a. eexists. split; [exact Ha|].
    unfold calculateComprehensiveEmission. rewrite Hf.
    cbn [bind calculateEmission]. split; [reflexivity|].
    cbn. repeat split.
  - intros k Hk. cbn in Hk.
    destruct Hk as [<-|[<-|[<-|[]]]]; vm_compute; reflexivity.
  - eexists. split; [vm_compute; reflexivity|].
    split; vm_compute; reflexivity.
Qed.

(** Mapping a callback that always returns over a list returns the list of
    its results. *)
Lemma map_completion_returns {A B} (f : A -> completion B) (g : A -> B) (l : list A) :
  (forall a, f a = Return (g a)) ->
  map_completion f l = Return (map g l).
Proof.
  intro Hf. induction l as [|a l IH]; cbn [map_completion map].
  - reflexivity.
  - rewrite Hf, IH. reflexivity.
Qed.

Lemma calculateComprehensiveEmission_result_of (m : string) (d : number) (p : params) :
  calculateComprehensiveEmission m d p = Return (result_of m d p) /\
  mode (result_of m d p) = m.
Proof.
  unfold result_of.
  destruct (calculateFuelConsumption_eq m d p) as [a [Ha Hf]].
  unfold calculateComprehensiveEmission. rewrite Hf.
  cbn [bind calculateEmission]. split; reflexivity.
Qed.

(** C8: for every distance and scenario, [calculateAllModes] returns
    exactly five records, in the order mobil, bus, motor, ka_argo, kcic: the
    i-th record is the orchestrator's record for the i-th mode and carries
    that mode in its [mode] field. *)
Theorem calculateAllModes_five_in_order :
  forall (d : number) (p : params),
    exists rs,
      calculateAllModes d p = Return rs /\
      List.length rs = 5%nat /\
      map mode rs = mode_order /\
      (forall i m, nth_error mode_order i = Some m ->
                   exists r, nth_error rs i = Some r /\
                             mode r = m /\
                             calculateComprehensiveEmission m d p = Return r).
Proof.
  intros d p.
  exists (map (fun m => result_of m d p) mode_order).
  split.
  { unfold calculateAllModes. apply map_completion_returns.
    intro m. apply calculateComprehensiveEmission_result_of. }
  split; [reflexivity|].
  split.
  { cbn [map mode_order].
    repeat rewrite (proj2 (calculateComprehensiveEmission_result_of _ d p)).
    reflexivity. }
  intros i m Hi. exists (result_of m d p).
  split.
  { rewrite nth_error_map, Hi. reflexivity. }
  split; apply calculateComprehensiveEmission_result_of.
Qed.

(* ================================================================== *)
(** ** Strings: substring search and letter case *)
(* ================================================================== *)

Lemma prefix_iff (a b : string) :
  String.prefix a b = true <-> exists suf, b = a ++ suf.
Proof.
  revert b. induction a as [|c a IH]; intro b.
  - split; [intros _; exists b; reflexivity|intros _; destruct b; reflexivity].
  - destruct b as [|c' b]; cbn [String.prefix append].
    + split; [discriminate|intros [suf H]; discriminate H].
    + destruct (Ascii.ascii_dec c c') as [->|Hne].
      * rewrite IH. split; intros [suf H]; exists suf.
        -- now rewrite H.
        -- now inversion H.
      * split; [discriminate|]. intros [suf H]. congruence.
Qed.

Lemma includes_iff (hay needle : string) :
  includes hay needle = true <-> exists pre suf, hay = pre ++ needle ++ suf.
Proof.
  induction hay as [|c hay IH]; cbn [includes]; rewrite orb_true_iff.
  - split.
    + intros [H|H]; [|discriminate].
      apply prefix_iff in H. destruct H as [suf H].
      exists "", suf. exact H.
    + intros [pre [suf H]]. left. apply prefix_iff.
      destruct pre; [exists suf; exact H|discriminate H].
  - rewrite IH, prefix_iff. split.
    + intros [[suf H]|[pre [suf H]]].
      * exists "", suf. exact H.
      * exists (String c pre), suf. cbn [append]. now rewrite H.
    + intros [pre [suf H]]. destruct pre as [|c' pre]; cbn [append] in H.
      * left. exists suf. exact H.
      * right. exists pre, suf. now inversion H.
Qed.

Lemma toLowerCase_app (a b : string) :
  toLowerCase (a ++ b) = toLowerCase a ++ toLowerCase b.
Proof.
  induction a as [|c a IH]; cbn [append toLowerCase]; [reflexivity|].
  now rewrite IH.
Qed.

Lemma toLowerCase_split (w a b : string) :
  toLowerCase w = a ++ b ->
  exists a' b', w = a' ++ b' /\ toLowerCase a' = a /\ toLowerCase b' = b.
Proof.
  revert w. induction a as [|c a IH]; intros w H; cbn [append] in H.
  - exists "", w. repeat split. exact H.
  - destruct w as [|c' w]; cbn [toLowerCase] in H; [discriminate H|].
    inversion H as [[Hc Ht]].
    destruct (IH w Ht) as [a' [b' [-> [Ha Hb]]]].
    exists (String c' a'), b'. cbn [append toLowerCase].
    rewrite Ha. repeat split. exact Hb.
Qed.

(** Searching the lower-cased text for a lower-case key is containment
    with letter case ignored. *)
Lemma includes_toLowerCase_iff (text key : string) :
  toLowerCase key = key ->
  includes (toLowerCase text) key = true <-> contains_ci text key.
Proof.
  intro Hkey. rewrite includes_iff. unfold contains_ci. rewrite Hkey. split.
  - intros [pre [suf H]].
    apply toLowerCase_split in H. destruct H as [pre' [rest [-> [_ H]]]].
    apply toLowerCase_split in H. destruct H as [mid [suf' [-> [Hm _]]]].
    exists pre', mid, suf'. split; [reflexivity|exact Hm].
  - intros [pre [mid [suf [-> Hm]]]].
    exists (toLowerCase pre), (toLowerCase suf).
    now rewrite !toLowerCase_app, Hm.
Qed.

(* ================================================================== *)
(** ** Properties of the weather adjustment factor *)
(* ================================================================== *)

Import BmkgService.

(** The three steps of the service compute the product of the rows that
    apply. *)
Lemma weather_steps_as_product (text : string) (t w : number) :
  wind_step w (temperature_step t (rain_step text (dec 10 1))) =
  product_over_base
    (rain_multipliers text
     ++ (if lt t (dec 15 0) || gt t (dec 35 0) then [dec 103 2] else [])
     ++ (if gt w (dec 15 0) then [dec 102 2] else [])).
Proof.
  unfold wind_step, temperature_step, rain_step, rain_multipliers.
  destruct (includes text "hujan ringan" || includes text "light rain");
    [|destruct (includes text "hujan lebat" || includes text "heavy rain"
                || includes text "hujan")];
    destruct (lt t (dec 15 0) || gt t (dec 35 0));
    destruct (gt w (dec 15 0));
    vm_compute; reflexivity.
Qed.

Lemma str_or_toLowerCase (c : string) :
  str_or (option_map toLowerCase (Some c)) "" = toLowerCase c.
Proof. cbn [option_map str_or]. destruct (toLowerCase c); reflexivity. Qed.

(** The [|| 25] default changes the temperature test only at zero. *)
Lemma temperature_default_harmless (t : number) :
  is_zero t = false ->
  let t' := num_or (Some t) (dec 25 0) in
  lt t' (dec 15 0) || gt t' (dec 35 0) = lt t (dec 15 0) || gt t (dec 35 0).
Proof.
  destruct t; intro Hz; try discriminate Hz; cbv zeta;
    unfold num_or; cbn [ToBoolean]; reflexivity.
Qed.

(** The [|| 0] default never changes the wind test. *)
Lemma wind_default_harmless (w : number) :
  gt (num_or (Some w) (dec 0 0)) (dec 15 0) = gt w (dec 15 0).
Proof.
  destruct w; unfold num_or; cbn [ToBoolean]; reflexivity.
Qed.

(** At 0 degrees the [|| 25] default replaces the reading by 25, so the
    service applies no temperature multiplier although 0 < 15. *)
Lemma freezing_gets_no_temperature_multiplier :
  lt (temperatureC freezing) (dec 15 0) = true /\
  getWeatherAdjustmentFactor (weather_data_of freezing) = Return (dec 10 1).
Proof. split; vm_compute; reflexivity. Qed.

(** The bare English word "rain" matches none of the service's keywords:
    the snapshot gets no rain multiplier, where the table as specified gives
    it 1.10. *)
Lemma generic_rain_gets_no_multiplier :
  unmatched_rain generic_rain = true /\
  getWeatherAdjustmentFactor (weather_data_of generic_rain) = Return (dec 10 1) /\
  deriveFromWeather_as_specified generic_rain = dec 110 2 /\
  num_eq (dec 10 1) (dec 110 2) = false.
Proof. repeat split; vm_compute; reflexivity. Qed.

(** C4 (counterexample): for 40 degrees, wind 20 and "heavy rain" the
    factor is not the number 1.15566: 1.10 * 1.03 * 1.02 evaluates in
    binary64 to 1.1556600000000004, two units in the last place above it.
    And the Indonesian text "hujan lebat", which the claim's table does not
    list, gets the multiplier 1.10 from the service. *)
Lemma weather_example_is_not_the_decimal :
  getWeatherAdjustmentFactor (weather_data_of hot_windy_heavy_rain)
  = Return max_weather_factor /\
  num_eq max_weather_factor (dec 115566 5) = false /\
  lt (dec 115566 5) max_weather_factor = true /\
  getWeatherAdjustmentFactor (weather_data_of hujan_lebat_day) = Return (dec 110 2) /\
  deriveFromWeather_as_specified hujan_lebat_day = dec 10 1 /\
  num_eq (dec 110 2) (dec 10 1) = false.
Proof. repeat split; vm_compute; reflexivity. Qed.

(** C4 (amended): for every snapshot whose temperature is not zero and
    whose condition text does not mention "rain" without one of the
    service's keywords, the service returns the product, over the base 1.0,
    of: 1.05 when the lower-cased condition text contains "hujan ringan" or
    "light rain"; otherwise 1.10 when it contains "hujan lebat", "heavy
    rain" or "hujan"; 1.03 when the temperature is below 15 or above 35;
    1.02 when the wind speed is above 15.  For 40 degrees, wind 20 and
    "heavy rain" that is 1.10 * 1.03 * 1.02 in binary64, the number
    5204629945366989 * 2^-52, which rounds to 1.15566 at five decimals.
    Nothing is said here about a reading of exactly zero degrees or about a
    text with a bare "rain". *)
Theorem getWeatherAdjustmentFactor_is_product :
  forall w : WeatherSnapshot,
    is_zero (temperatureC w) = false ->
    unmatched_rain w = false ->
    getWeatherAdjustmentFactor (weather_data_of w)
    = Return (product_over_base (weather_multipliers w)) /\
    getWeatherAdjustmentFactor (weather_data_of hot_windy_heavy_rain)
    = Return max_weather_factor /\
    max_weather_factor = S754_finite false 5204629945366989 (-52) /\
    round_to 5 max_weather_factor = dec 115566 5.
Proof.
  intros w Hz _. split; [|repeat split; vm_compute; reflexivity].
  unfold getWeatherAdjustmentFactor, weather_data_of.
  cbn [try_catch current condition temperature windSpeed].
  rewrite str_or_toLowerCase, weather_steps_as_product.
  rewrite (temperature_default_harmless _ Hz), wind_default_harmless.
  reflexivity.
Qed.

Lemma getWeatherAdjustmentFactor_is_product_witness :
  is_zero (temperatureC hot_windy_heavy_rain) = false /\
  unmatched_rain hot_windy_heavy_rain = false /\
  getWeatherAdjustmentFactor (weather_data_of hot_windy_heavy_rain)
  = Return (product_over_base (weather_multipliers hot_windy_heavy_rain)).
Proof.
  split; [reflexivity|]. split; [reflexivity|].
  apply (getWeatherAdjustmentFactor_is_product hot_windy_heavy_rain);
    reflexivity.
Defined.

(** Whatever the argument, the service returns a product of at most one
    rain multiplier, then the temperature and wind multipliers. *)
Lemma weather_factor_shape (wd : option weather_data) :
  exists rain rest,
    getWeatherAdjustmentFactor wd = Return (product_over_base (rain ++ rest)) /\
    In rain [[]; [dec 105 2]; [dec 110 2]] /\
    In rest [[]; [dec 102 2]; [dec 103 2]; [dec 103 2; dec 102 2]] /\
    (if mentions_light_rain wd then rain = [dec 105 2] else True).
Proof.
  unfold getWeatherAdjustmentFactor, mentions_light_rain.
  destruct wd as [[[cur|]]|]; cbn [try_catch current];
    [|exists [], []; cbn [In]; auto..].
  rewrite weather_steps_as_product.
  eexists; eexists. split; [reflexivity|].
  split; [|split].
  - unfold rain_multipliers.
    repeat match goal with |- context [if ?b then _ else _] =>
      destruct b end; cbn [In]; auto.
  - repeat match goal with |- context [if ?b then _ else _] =>
      destruct b end; cbn [In app]; auto.
  - destruct (condition cur) as [c|]; [|exact I].
    rewrite str_or_toLowerCase. unfold rain_multipliers.
    destruct (includes (toLowerCase c) "light rain"); [|exact I].
    rewrite orb_true_r. reflexivity.
Qed.

(** C10 (counterexample): for 40 degrees, wind 20 and "heavy rain" the
    returned factor exceeds 1.15566. *)
Lemma max_weather_factor_exceeds_literal :
  getWeatherAdjustmentFactor (weather_data_of hot_windy_heavy_rain)
  = Return max_weather_factor /\
  lt (dec 115566 5) max_weather_factor = true /\
  le max_weather_factor (dec 115566 5) = false.
Proof. repeat split; vm_compute; reflexivity. Qed.

(** C10 (amended): for every argument the service applies at most one of
    the two rain multipliers: the factor is the product of one of nothing,
    1.05 or 1.10 with the temperature and wind multipliers, and a condition
    text containing "light rain" selects 1.05 and never 1.10.  So the factor
    never exceeds the binary64 product 1.10 * 1.03 * 1.02 (printed
    1.1556600000000004) and is never the double-rain product
    1.05 * 1.10. *)
Theorem getWeatherAdjustmentFactor_one_rain_multiplier :
  forall wd : option weather_data,
    exists f rain rest,
      getWeatherAdjustmentFactor wd = Return f /\
      f = product_over_base (rain ++ rest) /\
      In rain [[]; [dec 105 2]; [dec 110 2]] /\
      In rest [[]; [dec 102 2]; [dec 103 2]; [dec 103 2; dec 102 2]] /\
      (if mentions_light_rain wd then rain = [dec 105 2] else True) /\
      le f max_weather_factor = true /\
      f <> double_rain_product /\
      num_eq f double_rain_product = false.
Proof.
  intro wd.
  destruct (weather_factor_shape wd) as [rain [rest [Hf [Hrain [Hrest Hlight]]]]].
  exists (product_over_base (rain ++ rest)), rain, rest.
  repeat (split; [assumption || reflexivity|]).
  clear Hf Hlight. cbn [In] in Hrain, Hrest.
  destruct Hrain as [<-|[<-|[<-|[]]]];
    destruct Hrest as [<-|[<-|[<-|[<-|[]]]]];
    vm_compute; (split; [reflexivity|split; [discriminate|reflexivity]]).
Qed.

(* ================================================================== *)
(** ** Properties of the route adjustment estimator *)
(* ================================================================== *)

(** [x == y] for a positive finite [y] holds for [y] alone. *)
Lemma num_eq_positive_finite (x : number) (m : positive) (e : Z) :
  num_eq x (S754_finite false m e) = true -> x = S754_finite false m e.
Proof.
  unfold num_eq, SFeqb.
  destruct x as [s|s| |s m' e']; cbn [SFcompare];
    try discriminate; try (destruct s; discriminate).
  destruct s; [discriminate|].
  destruct (Z.compare_spec e' e) as [->|Hlt|Hgt]; try discriminate.
  change (Pos.compare_cont Eq m' m) with (Pos.compare m' m).
  destruct (Pos.compare_spec m' m) as [->|Hlt|Hgt]; try discriminate.
  reflexivity.
Qed.

(** The [some] test of the estimator decides the presence of a traffic
    warning. *)
Lemma traffic_warning_test (s : RouteSummary) :
  existsb DirectionsService.is_traffic_warning (routeWarnings s) = true
  <-> has_traffic_warning s.
Proof.
  unfold has_traffic_warning. rewrite existsb_exists.
  split; intros [w [Hin Hw]]; exists w; (split; [exact Hin|]).
  - unfold DirectionsService.is_traffic_warning in Hw.
    apply orb_true_iff in Hw.
    destruct Hw as [Hw|Hw]; [left|right];
      apply includes_toLowerCase_iff; auto.
  - unfold DirectionsService.is_traffic_warning. apply orb_true_iff.
    destruct Hw as [Hw|Hw]; [left|right];
      apply includes_toLowerCase_iff; auto.
Qed.

(** The estimator on a route summary, in closed form: the two tests fill
    the traffic and urban fields independently. *)
Lemma estimateRouteAdjustments_eq (s : RouteSummary) (mode : string) :
  DirectionsService.estimateRouteAdjustments (route_data_of s) mode =
  Return
    {| DirectionsService.traffic :=
         if existsb DirectionsService.is_traffic_warning (routeWarnings s)
         then dec 11 1 else dec 10 1;
       DirectionsService.terrain := dec 10 1;
       DirectionsService.urban :=
         if lt (averageSpeed s) (dec 30 0) then dec 115 2
         else if gt (averageSpeed s) (dec 80 0) then dec 95 2
         else dec 10 1 |}.
Proof.
  unfold DirectionsService.estimateRouteAdjustments, route_data_of, averageSpeed.
  cbn [DirectionsService.warnings DirectionsService.distance
       DirectionsService.duration member bind try_catch
       DirectionsService.km DirectionsService.hours].
  destruct (existsb DirectionsService.is_traffic_warning (routeWarnings s));
    destruct (lt (div (distanceKm s) (durationHours s)) (dec 30 0));
    try destruct (gt (div (distanceKm s) (durationHours s)) (dec 80 0));
    reflexivity.
Qed.

(** C5: for every route summary the estimator returns adjustments whose
    traffic multiplier is 1.10 exactly when some warning contains "traffic"
    or "congestion", letter case ignored, and 1.0 otherwise; whose urban
    multiplier is 1.15 when distanceKm / durationHours is below 30, 0.95
    when it is above 80 and 1.0 otherwise, in particular at exactly 30 and
    at exactly 80. *)
Theorem estimateRouteAdjustments_traffic_and_urban :
  forall (s : RouteSummary) (mode : string),
    exists a,
      DirectionsService.estimateRouteAdjustments (route_data_of s) mode = Return a /\
      (DirectionsService.traffic a = dec 110 2 <-> has_traffic_warning s) /\
      (DirectionsService.traffic a = dec 10 1 <-> ~ has_traffic_warning s) /\
      DirectionsService.urban a =
        (if lt (averageSpeed s) (dec 30 0) then dec 115 2
         else if gt (averageSpeed s) (dec 80 0) then dec 95 2
         else dec 10 1) /\
      (num_eq (averageSpeed s) (dec 30 0) = true \/
       num_eq (averageSpeed s) (dec 80 0) = true ->
       DirectionsService.urban a = dec 10 1).
Proof.
  intros s mode. eexists. split; [apply estimateRouteAdjustments_eq|].
  cbn [DirectionsService.traffic DirectionsService.urban].
  pose proof (traffic_warning_test s) as Hw.
  assert (Hne : dec 11 1 <> dec 10 1) by (vm_compute; discriminate).
  assert (Hsame : dec 11 1 = dec 110 2) by reflexivity.
  split; [|split; [|split; [reflexivity|]]].
  - destruct (existsb DirectionsService.is_traffic_warning (routeWarnings s)).
    + split; [intros _; apply Hw; reflexivity|intros _; exact Hsame].
    + split; [intro H; exfalso; apply Hne; rewrite Hsame, H; reflexivity|].
      intro H. apply Hw in H. discriminate H.
  - destruct (existsb DirectionsService.is_traffic_warning (routeWarnings s)).
    + split; [intro H; exfalso; exact (Hne H)|].
      intro H. exfalso. apply H, Hw. reflexivity.
    + split; [|reflexivity].
      intros _ H. apply Hw in H. discriminate H.
  - intros [H|H]; apply num_eq_positive_finite in H; rewrite H; reflexivity.
Qed.

(* ================================================================== *)
(** ** Properties of [decodePolyline] *)
(* ================================================================== *)

Local Open Scope list_scope.

(** The example of the format's documentation: three points,
    (38.5, -120.2), (40.7, -120.95) and (43.252, -126.453). *)
Example decodePolyline_documented_example :
  Polyline.decodePolyline
    (Some (Polyline.units_of_string "_p~iF~ps|U_ulLnnqC_mqNvxq`@"))
  = Return
      [ {| Polyline.lat := dec 385 1;   Polyline.lng := dec (-1202) 1 |};
        {| Polyline.lat := dec 407 1;   Polyline.lng := dec (-12095) 2 |};
        {| Polyline.lat := dec 43252 3; Polyline.lng := dec (-126453) 3 |} ].
Proof. vm_compute. reflexivity. Qed.

(** Reading a value never lengthens the text, and shortens a text that is
    not empty. *)
Lemma read_value_length (s : Polyline.code_units) (shift result : Z) :
  (List.length (snd (Polyline.read_value s shift result)) <= List.length s)%nat /\
  (s <> [] ->
   (List.length (snd (Polyline.read_value s shift result)) < List.length s)%nat).
Proof.
  revert shift result. induction s as [|c rest IH]; intros shift result.
  - split; [apply Nat.le_refl|intro H; contradiction].
  - cbn [Polyline.read_value].
    destruct (32 <=? c - 63).
    + destruct (IH (shift + 5) (Z.lor result
                 (Polyline.shl32 (Z.land (c - 63) 31) shift))) as [Hle _].
      cbn [List.length]. split; [|intros _]; lia.
    + cbn [snd List.length]. split; [|intros _]; lia.
Qed.

(** One round of the loop, for a text that is not empty. *)
Lemma decode_loop_step (fuel : nat) (c : Z) (rest : Polyline.code_units)
  (lat lng : number) :
  Polyline.decode_loop (S fuel) (c :: rest) lat lng =
  let r1 := Polyline.read_value (c :: rest) 0 0 in
  let lat' := Polyline.add lat (Polyline.of_Z (Polyline.delta_of (fst r1))) in
  let r2 := Polyline.read_value (snd r1) 0 0 in
  let lng' := Polyline.add lng (Polyline.of_Z (Polyline.delta_of (fst r2))) in
  {| Polyline.lat := div lat' (dec 100000 0);
     Polyline.lng := div lng' (dec 100000 0) |}
    :: Polyline.decode_loop fuel (snd r2) lat' lng'.
Proof.
  cbn [Polyline.decode_loop].
  destruct (Polyline.read_value (c :: rest) 0 0) as [r1 s1]. cbn [fst snd].
  destruct (Polyline.read_value s1 0 0) as [r2 s2]. reflexivity.
Qed.

Lemma decode_loop_nil (fuel : nat) (lat lng : number) :
  Polyline.decode_loop fuel [] lat lng = [].
Proof. destruct fuel; reflexivity. Qed.

(** The loop is over after at most [length s] rounds: more fuel changes
    nothing. *)
Lemma decode_loop_fuel (f1 f2 : nat) (s : Polyline.code_units) (lat lng : number) :
  (List.length s <= f1)%nat -> (List.length s <= f2)%nat ->
  Polyline.decode_loop f1 s lat lng = Polyline.decode_loop f2 s lat lng.
Proof.
  revert f2 s lat lng. induction f1 as [|f1 IH]; intros f2 s lat lng H1 H2.
  - destruct s; [|cbn in H1; lia]. now rewrite !decode_loop_nil.
  - destruct s as [|c rest]; [now rewrite !decode_loop_nil|].
    destruct f2 as [|f2]; [cbn in H2; lia|].
    rewrite !decode_loop_step. cbv zeta. f_equal.
    pose proof (proj2 (read_value_length (c :: rest) 0 0) ltac:(discriminate)) as Ha.
    pose proof (proj1 (read_value_length
                         (snd (Polyline.read_value (c :: rest) 0 0)) 0 0)) as Hb.
    cbn [List.length] in H1, H2, Ha.
    apply IH; lia.
Qed.

(** Two characters per point, except that the last point may have been
    read from one. *)
Lemma decode_loop_length (fuel : nat) (s : Polyline.code_units) (lat lng : number) :
  (2 * List.length (Polyline.decode_loop fuel s lat lng) <= List.length s + 1)%nat.
Proof.
  revert s lat lng. induction fuel as [|fuel IH]; intros s lat lng.
  - cbn. lia.
  - destruct s as [|c rest]; [cbn; lia|].
    rewrite decode_loop_step. cbv zeta. cbn [List.length].
    pose proof (proj2 (read_value_length (c :: rest) 0 0) ltac:(discriminate)) as Ha.
    cbn [List.length] in Ha.
    destruct (snd (Polyline.read_value (c :: rest) 0 0)) as [|c1 s1] eqn:E1.
    + cbn [Polyline.read_value snd]. rewrite decode_loop_nil. cbn. lia.
    + pose proof (proj2 (read_value_length (c1 :: s1) 0 0) ltac:(discriminate)) as Hb.
      cbn [List.length] in Ha, Hb.
      match goal with |- context [Polyline.decode_loop fuel ?s2 ?a ?b] =>
        pose proof (IH s2 a b) as Hc end.
      lia.
Qed.

(** X1: [decodePolyline] returns for every argument and never throws; the
    loop ends within [length] rounds, and a text of [n] characters yields at
    most [(n + 1) / 2] points.  A missing or empty text yields no point. *)
Theorem decodePolyline_returns_bounded :
  forall s : Polyline.code_units,
    exists pts,
      Polyline.decodePolyline (Some s) = Return pts /\
      (2 * List.length pts <= List.length s + 1)%nat /\
      (forall fuel, (List.length s <= fuel)%nat ->
                    Polyline.decode_loop fuel s (dec 0 0) (dec 0 0) = pts) /\
      Polyline.decodePolyline None = Return [] /\
      (s = [] -> pts = []).
Proof.
  intro s. exists (Polyline.decode_loop (List.length s) s (dec 0 0) (dec 0 0)).
  split; [destruct s; reflexivity|].
  split; [apply decode_loop_length|].
  split; [intros fuel H; apply decode_loop_fuel; [exact H|apply Nat.le_refl]|].
  split; [reflexivity|]. intros ->. reflexivity.
Qed.

(** A complete value is read to its end and no further, whatever
    follows. *)
Lemma read_value_app (a rest : Polyline.code_units) (shift result : Z) :
  Polyline.complete_value a = true ->
  Polyline.read_value (a ++ rest) shift result
  = (fst (Polyline.read_value a shift result), rest).
Proof.
  revert shift result. induction a as [|c a IH]; intros shift result H.
  - discriminate H.
  - destruct a as [|c' a].
    + cbn [Polyline.complete_value] in H. apply Z.ltb_lt in H.
      cbn [app Polyline.read_value].
      destruct (Z.leb_spec 32 (c - 63)); [lia|reflexivity].
    + change (Polyline.complete_value (c :: c' :: a))
        with ((32 <=? c - 63) && Polyline.complete_value (c' :: a)) in H.
      apply andb_true_iff in H. destruct H as [Hc Ha].
      change ((c :: c' :: a) ++ rest) with (c :: ((c' :: a) ++ rest)).
      cbn [Polyline.read_value]. rewrite Hc. apply IH. exact Ha.
Qed.

Lemma complete_value_not_nil (a : Polyline.code_units) :
  Polyline.complete_value a = true -> exists c a', a = c :: a'.
Proof. destruct a as [|c a']; [discriminate|eauto]. Qed.

(** The loop on a text that starts with complete pairs: their points come
    first, and the loop goes on with what follows. *)
Lemma decode_loop_pairs (pairs : list (Polyline.code_units * Polyline.code_units))
  (tail : Polyline.code_units) :
  Polyline.complete_pairs pairs = true ->
  forall (fuel : nat) (lat lng : number),
    (List.length (Polyline.text_of pairs ++ tail) <= fuel)%nat ->
    Polyline.decode_loop fuel (Polyline.text_of pairs ++ tail)%list lat lng
    = (Polyline.points_of pairs lat lng
       ++ Polyline.decode_loop fuel tail
            (fst (Polyline.sums_after pairs lat lng))
            (snd (Polyline.sums_after pairs lat lng)))%list.
Proof.
  induction pairs as [|[a b] pairs IH]; intros Hwf fuel lat lng Hfuel.
  - reflexivity.
  - cbn [Polyline.complete_pairs forallb fst snd] in Hwf.
    apply andb_true_iff in Hwf. destruct Hwf as [Hab Hwf].
    apply andb_true_iff in Hab. destruct Hab as [Ha Hb].
    destruct (complete_value_not_nil a Ha) as [c [a' Ea]].
    cbn [Polyline.text_of Polyline.points_of Polyline.sums_after] in Hfuel |- *.
    rewrite <- !app_assoc in Hfuel |- *.
    destruct fuel as [|fuel];
      [subst a; cbn [app List.length] in Hfuel; lia|].
    assert (Hstep :
      Polyline.decode_loop (S fuel)
        (a ++ b ++ Polyline.text_of pairs ++ tail)%list lat lng
      = let lat1 := Polyline.add lat
                      (Polyline.of_Z (Polyline.delta_of (Polyline.value_of a))) in
        let lng1 := Polyline.add lng
                      (Polyline.of_Z (Polyline.delta_of (Polyline.value_of b))) in
        {| Polyline.lat := div lat1 (dec 100000 0);
           Polyline.lng := div lng1 (dec 100000 0) |}
          :: Polyline.decode_loop fuel (Polyline.text_of pairs ++ tail)%list
               lat1 lng1).
    { rewrite Ea at 1. change ((c :: a') ++ ?r)%list with (c :: (a' ++ r))%list.
      rewrite decode_loop_step. cbv zeta.
      change (c :: (a' ++ ?r))%list with ((c :: a') ++ r)%list. rewrite <- Ea.
      rewrite (read_value_app a _ 0 0 Ha). cbn [fst snd].
      rewrite (read_value_app b _ 0 0 Hb). cbn [fst snd]. reflexivity. }
    rewrite Hstep. cbv zeta.
    assert (Hlen : (List.length (Polyline.text_of pairs ++ tail) <= fuel)%nat).
    { rewrite Ea in Hfuel. cbn [app List.length] in Hfuel.
      rewrite !length_app in Hfuel. rewrite length_app. lia. }
    rewrite (IH Hwf fuel _ _ Hlen). cbn [app]. do 2 f_equal.
    apply decode_loop_fuel; rewrite length_app in Hlen; lia.
Qed.

Lemma points_of_length (pairs : list (Polyline.code_units * Polyline.code_units))
  (lat lng : number) :
  List.length (Polyline.points_of pairs lat lng) = List.length pairs.
Proof.
  revert lat lng. induction pairs as [|[a b] pairs IH]; intros lat lng.
  - reflexivity.
  - cbn [Polyline.points_of List.length]. now rewrite IH.
Qed.

(** X2: a text that starts with complete (latitude, longitude) value
    pairs decodes to one point per pair, each the running sum of the deltas
    read so far divided by 1e5, in order; what follows the pairs can only
    add points after them, and nothing when the text ends there. *)
Theorem decodePolyline_complete_pairs :
  forall (pairs : list (Polyline.code_units * Polyline.code_units))
         (tail : Polyline.code_units),
    Polyline.complete_pairs pairs = true ->
    exists more,
      Polyline.decodePolyline (Some (Polyline.text_of pairs ++ tail)%list)
      = Return (Polyline.points_of pairs (dec 0 0) (dec 0 0) ++ more)%list /\
      List.length (Polyline.points_of pairs (dec 0 0) (dec 0 0))
      = List.length pairs /\
      (tail = [] -> more = []).
Proof.
  intros pairs tail Hwf.
  set (s := (Polyline.text_of pairs ++ tail)%list).
  pose proof (decode_loop_pairs pairs tail Hwf (List.length s) (dec 0 0) (dec 0 0)
                (Nat.le_refl _)) as H.
  eexists.
  split; [|split].
  - fold s in H. rewrite <- H. destruct s; reflexivity.
  - apply points_of_length.
  - intros ->. apply decode_loop_nil.
Qed.

Lemma decodePolyline_complete_pairs_witness :
  Polyline.complete_pairs Polyline.documented_pairs = true /\
  exists more,
    Polyline.decodePolyline
      (Some (Polyline.text_of Polyline.documented_pairs ++ [])%list)
    = Return (Polyline.points_of Polyline.documented_pairs (dec 0 0) (dec 0 0)
              ++ more)%list /\
    List.length (Polyline.points_of Polyline.documented_pairs (dec 0 0) (dec 0 0))
    = List.length Polyline.documented_pairs /\
    (@nil Z = [] -> more = []).
Proof.
  split; [reflexivity|].
  apply (decodePolyline_complete_pairs Polyline.documented_pairs []).
  reflexivity.
Defined.

(** X18: a text that ends after a latitude.  When complete pairs are
    followed by characters that the latitude reader consumes to the end of
    the text (a last latitude without its longitude, or one cut short), the
    decoder throws nothing and still emits a point for them: its latitude
    adds the value read, its longitude adds 0 to the running sum. *)
Theorem decodePolyline_dangling_latitude :
  forall (pairs : list (Polyline.code_units * Polyline.code_units))
         (a : Polyline.code_units),
    Polyline.complete_pairs pairs = true ->
    a <> [] ->
    snd (Polyline.read_value a 0 0) = [] ->
    Polyline.decodePolyline (Some (Polyline.text_of pairs ++ a))
    = Return
        (Polyline.points_of pairs (dec 0 0) (dec 0 0)
         ++ [ {| Polyline.lat :=
                   div (Polyline.add
                          (fst (Polyline.sums_after pairs (dec 0 0) (dec 0 0)))
                          (Polyline.of_Z (Polyline.delta_of (Polyline.value_of a))))
                       (dec 100000 0);
                 Polyline.lng :=
                   div (Polyline.add
                          (snd (Polyline.sums_after pairs (dec 0 0) (dec 0 0)))
                          (Polyline.of_Z 0))
                       (dec 100000 0) |} ]).
Proof.
  intros pairs a Hwf Ha Hend.
  set (s := Polyline.text_of pairs ++ a).
  assert (Hrun : Polyline.decodePolyline (Some s)
                 = Return (Polyline.decode_loop (List.length s) s (dec 0 0) (dec 0 0)))
    by (destruct s; reflexivity).
  rewrite Hrun. f_equal. subst s.
  rewrite (decode_loop_pairs pairs a Hwf _ _ _ (Nat.le_refl _)). f_equal.
  destruct a as [|c a']; [contradiction|].
  rewrite length_app. cbn [List.length]. rewrite Nat.add_succ_r.
  rewrite decode_loop_step. cbv zeta. unfold Polyline.value_of.
  rewrite Hend. cbn [Polyline.read_value fst snd].
  rewrite decode_loop_nil. reflexivity.
Qed.

Lemma decodePolyline_dangling_latitude_witness :
  Polyline.complete_pairs Polyline.documented_pairs = true /\
  Polyline.units_of_string "_p~iF" <> [] /\
  snd (Polyline.read_value (Polyline.units_of_string "_p~iF") 0 0) = [] /\
  exists pts,
    Polyline.decodePolyline
      (Some (Polyline.text_of Polyline.documented_pairs
             ++ Polyline.units_of_string "_p~iF"))
    = Return pts /\ List.length pts = 4%nat.
Proof.
  assert (Ha : Polyline.units_of_string "_p~iF" <> []) by discriminate.
  split; [reflexivity|]. split; [exact Ha|]. split; [reflexivity|].
  eexists. split.
  - apply (decodePolyline_dangling_latitude Polyline.documented_pairs
             (Polyline.units_of_string "_p~iF") eq_refl Ha eq_refl).
  - reflexivity.
Defined.

(** Or-ing in bits above those already set adds them. *)
Lemma lor_high_bits (r c n : Z) :
  0 <= n -> 0 <= r < 2 ^ n -> Z.lor r (c * 2 ^ n) = r + c * 2 ^ n.
Proof.
  intros Hn Hr.
  assert (Hdisj : Z.land r (c * 2 ^ n) = 0).
  { apply Z.bits_inj'. intros i Hi. rewrite Z.land_spec, Z.bits_0.
    destruct (Z.lt_ge_cases i n) as [Hlt|Hge].
    - rewrite (Z.mul_pow2_bits_low c n i Hlt). apply andb_false_r.
    - rewrite <- (Z.mod_small r (2 ^ n)) by lia.
      rewrite Z.mod_pow2_bits_high by lia. reflexivity. }
  rewrite <- Z.lxor_lor by exact Hdisj.
  symmetry. apply Z.add_nocarry_lxor. exact Hdisj.
Qed.

(** The low five bits of a chunk character. *)
Lemma land_31_chunk (c k : Z) :
  0 <= c < 32 -> Z.land (c + 32 * k) 31 = c.
Proof.
  intro Hc. change 31 with (Z.ones 5). rewrite Z.land_ones by lia.
  change (2 ^ 5) with 32. rewrite Z.mul_comm, Z_mod_plus_full.
  apply Z.mod_small. exact Hc.
Qed.

(** A chunk shifted by at most 25 places stays a 32-bit integer. *)
Lemma shl32_small (c shift : Z) :
  0 <= c < 32 -> 0 <= shift <= 25 -> Polyline.shl32 c shift = c * 2 ^ shift.
Proof.
  intros Hc Hs. unfold Polyline.shl32, Polyline.to_int32.
  rewrite (Z.mod_small shift 32) by lia.
  assert (0 < 2 ^ shift) by (apply Z.pow_pos_nonneg; lia).
  assert (2 ^ shift <= 2 ^ 25) by (apply Z.pow_le_mono_r; lia).
  change (2 ^ 25) with 33554432 in *.
  change (2 ^ 31) with 2147483648. change (2 ^ 32) with 4294967296.
  rewrite Z.mod_small; nia.
Qed.

(** The reader on chunk characters, started in the middle of a value. *)
Lemma read_value_chunks (chunks : list Z) (rest : Polyline.code_units) :
  chunks <> [] ->
  Forall (fun c => 0 <= c < 32) chunks ->
  forall shift result,
    0 <= shift ->
    shift + 5 * Z.of_nat (List.length chunks) <= 30 ->
    0 <= result < 2 ^ shift ->
    Polyline.read_value (Polyline.chunk_chars chunks ++ rest) shift result
    = (result + 2 ^ shift * Polyline.chunk_number chunks, rest).
Proof.
  induction chunks as [|c chunks IH]; intros Hne Hall shift result Hs Hlen Hr;
    [contradiction|].
  inversion Hall as [|? ? Hc Hall']; subst.
  cbn [List.length] in Hlen.
  destruct chunks as [|c' chunks].
  - cbn [Polyline.chunk_chars app Polyline.read_value Polyline.chunk_number].
    replace (c + 63 - 63) with (c + 32 * 0) by lia.
    rewrite land_31_chunk by exact Hc.
    rewrite shl32_small by lia.
    rewrite lor_high_bits by lia.
    destruct (Z.leb_spec 32 (c + 32 * 0)); [lia|].
    apply (f_equal (fun x => (x, rest))). ring.
  - change (Polyline.chunk_chars (c :: c' :: chunks))
      with ((c + 32 + 63) :: Polyline.chunk_chars (c' :: chunks)).
    change (Polyline.chunk_number (c :: c' :: chunks))
      with (c + 32 * Polyline.chunk_number (c' :: chunks)).
    cbn [app Polyline.read_value].
    replace (c + 32 + 63 - 63) with (c + 32 * 1) by lia.
    rewrite land_31_chunk by exact Hc.
    rewrite shl32_small by (cbn [List.length] in Hlen; lia).
    rewrite lor_high_bits by lia.
    destruct (Z.leb_spec 32 (c + 32 * 1)); [|lia].
    assert (Hpow : 2 ^ (shift + 5) = 32 * 2 ^ shift)
      by (rewrite Z.pow_add_r by lia; change (2 ^ 5) with 32; lia).
    rewrite IH; [|discriminate|exact Hall'|lia|lia|rewrite Hpow; nia].
    apply (f_equal (fun x => (x, rest))). rewrite Hpow. ring.
Qed.

(** X3: a value spelled as up to six 5-bit chunks, low chunk first, every
    character being 63 plus the chunk plus 0x20 while more chunks follow,
    is read back as the number the chunks spell in base 32, and the reader
    stops right after the last chunk. *)
Theorem read_value_of_chunks :
  forall (chunks : list Z) (rest : Polyline.code_units),
    chunks <> [] ->
    Forall (fun c => 0 <= c < 32) chunks ->
    (List.length chunks <= 6)%nat ->
    Polyline.read_value (Polyline.chunk_chars chunks ++ rest) 0 0
    = (Polyline.chunk_number chunks, rest).
Proof.
  intros chunks rest Hne Hall Hlen.
  rewrite (read_value_chunks chunks rest Hne Hall 0 0); [|lia|lia|cbn; lia].
  apply (f_equal (fun x => (x, rest))). change (2 ^ 0) with 1. lia.
Qed.

Lemma read_value_of_chunks_witness :
  [31; 15; 1] <> [] /\
  Forall (fun c => 0 <= c < 32) [31; 15; 1] /\
  (List.length [31; 15; 1] <= 6)%nat /\
  Polyline.read_value (Polyline.chunk_chars [31; 15; 1] ++ [70]) 0 0
  = (Polyline.chunk_number [31; 15; 1], [70]).
Proof.
  assert (Hne : [31; 15; 1] <> []) by discriminate.
  assert (Hall : Forall (fun c => 0 <= c < 32) [31; 15; 1])
    by (repeat constructor; lia).
  assert (Hlen : (List.length [31; 15; 1] <= 6)%nat) by (cbn; lia).
  split; [exact Hne|]. split; [exact Hall|]. split; [exact Hlen|].
  apply (read_value_of_chunks [31; 15; 1] [70] Hne Hall Hlen).
Defined.

(** X4: the sign decoding, on 32-bit results.  For every [v] from
    [-2^30] up to [2^30 - 1] - so that [2 v] and [2 v + 1] are 32-bit
    integers, as every result of the reader is - the even result [2 v] is
    the delta [v] and the odd result [2 v + 1] is the delta [- v - 1]; so
    every delta [d] in that range is recovered from [2 d] when it is not
    negative and from [- 2 d - 1] when it is. *)
Theorem delta_of_sign_decoding :
  forall v : Z,
    - 2 ^ 30 <= v < 2 ^ 30 ->
    (- 2 ^ 31 <= 2 * v < 2 ^ 31 /\ - 2 ^ 31 <= 2 * v + 1 < 2 ^ 31) /\
    Polyline.to_int32 (2 * v) = 2 * v /\
    Polyline.to_int32 (2 * v + 1) = 2 * v + 1 /\
    Polyline.delta_of (2 * v) = v /\
    Polyline.delta_of (2 * v + 1) = - v - 1 /\
    Polyline.delta_of (if 0 <=? v then 2 * v else - 2 * v - 1) = v.
Proof.
  assert (Heven : forall v, Polyline.delta_of (2 * v) = v).
  { intro v. unfold Polyline.delta_of.
    change 1 with (Z.ones 1) at 1. rewrite Z.land_ones by lia.
    change (2 ^ 1) with 2. rewrite Z.mul_comm, Z.mod_mul by lia.
    cbn [Z.eqb]. rewrite Z.shiftr_div_pow2 by lia. change (2 ^ 1) with 2.
    apply Z.div_mul. lia. }
  assert (Hodd : forall v, Polyline.delta_of (2 * v + 1) = - v - 1).
  { intro v. unfold Polyline.delta_of.
    change 1 with (Z.ones 1) at 2. rewrite Z.land_ones by lia.
    change (2 ^ 1) with 2.
    rewrite Z.add_comm, Z.mul_comm, Z_mod_plus_full. cbn [Z.modulo Z.eqb].
    change (1 mod 2 =? 0) with false. cbv iota.
    rewrite Z.shiftr_div_pow2 by lia. change (2 ^ 1) with 2.
    rewrite Z.div_add by lia. change (1 / 2) with 0.
    unfold Z.lnot. lia. }
  assert (Hint : forall z, - 2 ^ 31 <= z < 2 ^ 31 -> Polyline.to_int32 z = z).
  { intros z Hz. unfold Polyline.to_int32.
    change (2 ^ 31) with 2147483648 in *. change (2 ^ 32) with 4294967296.
    rewrite Z.mod_small; lia. }
  intros v Hv. change (2 ^ 30) with 1073741824 in Hv.
  assert (Hr : - 2 ^ 31 <= 2 * v < 2 ^ 31 /\ - 2 ^ 31 <= 2 * v + 1 < 2 ^ 31)
    by (change (2 ^ 31) with 2147483648; lia).
  split; [exact Hr|].
  split; [apply Hint, Hr|]. split; [apply Hint, Hr|].
  split; [apply Heven|]. split; [apply Hodd|].
  destruct (Z.leb_spec 0 v).
  - apply Heven.
  - replace (- 2 * v - 1) with (2 * (- v - 1) + 1) by lia.
    rewrite Hodd. lia.
Qed.

Lemma delta_of_sign_decoding_witness :
  - 2 ^ 30 <= -12020000 < 2 ^ 30 /\
  Polyline.delta_of (if 0 <=? -12020000 then 2 * -12020000
                     else - 2 * -12020000 - 1) = -12020000.
Proof.
  assert (H : - 2 ^ 30 <= -12020000 < 2 ^ 30) by (cbn; lia).
  split; [exact H|].
  apply (delta_of_sign_decoding (-12020000) H).
Defined.

(* ================================================================== *)
(** ** Signs: the engine's outputs are never negative *)
(* ================================================================== *)

Import Extra.

Lemma shr_1_nonneg (mrs : shr_record) :
  0 <= shr_m mrs -> 0 <= shr_m (shr_1 mrs).
Proof.
  destruct mrs as [m r s]. cbn [shr_m]. intro H.
  destruct m as [|[p|p|]|p]; cbn; lia.
Qed.

Lemma iter_shr_1_nonneg (p : positive) (mrs : shr_record) :
  0 <= shr_m mrs -> 0 <= shr_m (iter_pos shr_1 p mrs).
Proof.
  revert mrs. induction p as [p IH|p IH|]; intros mrs H; cbn [iter_pos].
  - apply IH, IH, shr_1_nonneg, H.
  - apply IH, IH, H.
  - apply shr_1_nonneg, H.
Qed.

Lemma shr_fexp_nonneg (m e : Z) (l : location) :
  0 <= m -> 0 <= shr_m (fst (shr_fexp prec emax m e l)).
Proof.
  intro H. unfold shr_fexp, shr.
  assert (H0 : 0 <= shr_m (shr_record_of_loc m l))
    by (destruct l as [|[]]; exact H).
  destruct (fexp prec emax (Zdigits2 m + e) - e) as [|p|p]; cbn [fst];
    [exact H0|apply iter_shr_1_nonneg, H0|exact H0].
Qed.

Lemma round_nearest_even_nonneg (m : Z) (l : location) :
  0 <= m -> 0 <= round_nearest_even m l.
Proof.
  intro H. unfold round_nearest_even.
  destruct l as [|[]]; try destruct (Z.even m); lia.
Qed.

(** Rounding a magnitude keeps the sign it is given and never yields NaN. *)
Lemma binary_round_aux_signed (s : bool) (mx ex : Z) (lx : location) :
  0 <= mx -> signed_as s (binary_round_aux prec emax s mx ex lx).
Proof.
  intro H. unfold binary_round_aux.
  pose proof (shr_fexp_nonneg mx ex lx H) as H1.
  destruct (shr_fexp prec emax mx ex lx) as [mrs' e']. cbn [fst] in H1.
  pose proof (shr_fexp_nonneg
                (round_nearest_even (shr_m mrs') (loc_of_shr_record mrs'))
                e' loc_Exact (round_nearest_even_nonneg _ _ H1)) as H2.
  destruct (shr_fexp prec emax _ e' loc_Exact) as [mrs'' e'']. cbn [fst] in H2.
  destruct (shr_m mrs'') as [|p|p]; [reflexivity| |lia].
  destruct (e'' <=? emax - prec); reflexivity.
Qed.

Lemma signed_false_non_negative (x : number) :
  signed_as false x -> non_negative x = true.
Proof. destruct x as [s|s| |s m e]; cbn; intro H; subst; try reflexivity; contradiction. Qed.

Lemma of_ratio_signed (s : bool) (n d : positive) : signed_as s (of_ratio s n d).
Proof.
  unfold of_ratio, SFdiv_core_binary.
  set (e' := Z.min _ _). set (m' := match _ with Zpos _ => _ | _ => _ end).
  assert (Hm : 0 <= m').
  { subst m'. destruct (0 - 0 - e') as [|p|p]; [lia| |lia].
    apply Z.shiftl_nonneg. lia. }
  pose proof (Z.div_pos m' (Zpos d) Hm ltac:(lia)) as Hq.
  unfold Z.div in Hq.
  destruct (Z.div_eucl m' (Zpos d)) as [q r]. cbn [fst] in Hq.
  apply binary_round_aux_signed. exact Hq.
Qed.

(** Multiplying by a positive finite number keeps a number non-negative. *)
Lemma mul_positive_non_negative (m : positive) (e : Z) (y : number) :
  non_negative y = true ->
  non_negative (mul (S754_finite false m e) y) = true /\
  non_negative (mul y (S754_finite false m e)) = true.
Proof.
  destruct y as [s|s| |s my ey]; intro H.
  - split; reflexivity.
  - destruct s; [discriminate H|]. split; reflexivity.
  - discriminate H.
  - destruct s; [discriminate H|].
    split; apply signed_false_non_negative;
      unfold mul, SFmul; cbn [xorb]; apply binary_round_aux_signed; lia.
Qed.

(** Display rounding keeps a number non-negative. *)
Lemma round_to_non_negative (f : nat) (x : number) :
  non_negative x = true -> non_negative (round_to f x) = true.
Proof.
  unfold round_to. destruct x as [s|s| |s m e]; intro H.
  - reflexivity.
  - destruct s; [discriminate H|]. reflexivity.
  - discriminate H.
  - destruct s; [discriminate H|]. cbn [toFixed].
    destruct (at_least_1e21 m e); [exact H|]. cbn [parseFloat].
    destruct (fixed_digits m e f); try reflexivity.
    apply signed_false_non_negative, of_ratio_signed.
Qed.

(** The adjustment factor is a positive finite number. *)
Lemma adjustment_positive_finite (p : params) :
  exists m e, getAdjustmentFactor p = Return (S754_finite false m e).
Proof.
  rewrite getAdjustmentFactor_unfold.
  destruct (strict_eq (traffic p) "padat"),
           (strict_eq (traffic p) "sangat_padat"),
           (strict_eq (cuaca p) "hujan_ringan"),
           (strict_eq (cuaca p) "hujan_lebat"),
           (strict_eq (loadFactor p) "peak");
    vm_compute; eexists; eexists; reflexivity.
Qed.

(** The rate of each of the five modes is a positive finite number. *)
Lemma baseRate_positive_finite (m : string) :
  In m mode_order -> exists mr er, baseRate m = S754_finite false mr er.
Proof.
  cbn [mode_order In].
  intros [<-|[<-|[<-|[<-|[<-|[]]]]]]; vm_compute; eexists; eexists; reflexivity.
Qed.

Lemma own_property_miss (k key : string) (v : number) (rest : list (string * number)) :
  key <> k -> own_property ((k, v) :: rest) key = own_property rest key.
Proof.
  intro H. cbn [own_property].
  destruct (String.eqb_spec k key) as [E|_]; [congruence|reflexivity].
Qed.

(** Unless the energy source names an inherited member, the factor the
    emission calculator applies is a positive finite number. *)
Lemma emissionFactorApplied_positive_finite (es : string) :
  inherited_key es = false ->
  exists m e, emissionFactorApplied es = S754_finite false m e.
Proof.
  intro Hk. unfold emissionFactorApplied.
  destruct (String.eqb_spec es "bahan_bakar") as [->|H1];
    [vm_compute; eauto|].
  destruct (String.eqb_spec es "listrik_grid") as [->|H2];
    [vm_compute; eauto|].
  destruct (String.eqb_spec es "biofuel") as [->|H3];
    [vm_compute; eauto|].
  destruct (String.eqb_spec es "listrik_renewable") as [->|H4];
    [vm_compute; eauto|].
  unfold get at 1. unfold emissionFactors at 1.
  rewrite !own_property_miss by assumption. cbn [own_property].
  unfold inherited_key in Hk. rewrite Hk.
  vm_compute. eauto.
Qed.

(** X5: for each of the five modes, every distance [>= 0] (infinite ones
    included) and every scenario whose energy source is not the name of an
    inherited object member, the orchestrator returns a record whose
    distance, fuel consumption and emission are all [>= 0]; none of them is
    negative or NaN. *)
Theorem calculateComprehensiveEmission_non_negative :
  forall (m : string) (d : number) (p : params),
    In m mode_order ->
    non_negative d = true ->
    inherited_key (str_or (energy p) "bahan_bakar") = false ->
    exists r,
      calculateComprehensiveEmission m d p = Return r /\
      non_negative (distance r) = true /\
      non_negative (fuelConsumption r) = true /\
      non_negative (emission r) = true.
Proof.
  intros m d p Hm Hd He.
  destruct (calculateFuelConsumption_eq m d p) as [a [Ha Hf]].
  destruct (adjustment_positive_finite p) as [ma [ea Ha']].
  rewrite Ha' in Ha. injection Ha as <-.
  destruct (baseRate_positive_finite m Hm) as [mr [er Hr]].
  destruct (emissionFactorApplied_positive_finite _ He) as [mf [ef Hfac]].
  unfold calculateComprehensiveEmission. rewrite Hf.
  cbn [bind calculateEmission]. eexists. split; [reflexivity|].
  cbn [distance fuelConsumption emission].
  fold (emissionFactorApplied (str_or (energy p) "bahan_bakar")).
  rewrite Hr, Hfac.
  assert (Hfuel : non_negative
            (mul (mul (S754_finite false mr er) d) (S754_finite false ma ea)) = true).
  { apply mul_positive_non_negative.
    apply (mul_positive_non_negative mr er d Hd). }
  split; [apply (round_to_non_negative 2 d Hd)|].
  split; [apply (round_to_non_negative 3 _ Hfuel)|].
  apply (round_to_non_negative 3).
  apply mul_positive_non_negative. exact Hfuel.
Qed.

Lemma calculateComprehensiveEmission_non_negative_witness :
  In "mobil" mode_order /\
  non_negative (dec 150 0) = true /\
  inherited_key (str_or (energy default_scenario) "bahan_bakar") = false /\
  exists r,
    calculateComprehensiveEmission "mobil" (dec 150 0) default_scenario = Return r /\
    non_negative (distance r) = true /\
    non_negative (fuelConsumption r) = true /\
    non_negative (emission r) = true.
Proof.
  assert (Hm : In "mobil" mode_order) by (left; reflexivity).
  split; [exact Hm|]. split; [reflexivity|]. split; [reflexivity|].
  apply (calculateComprehensiveEmission_non_negative
           "mobil" (dec 150 0) default_scenario Hm eq_refl eq_refl).
Defined.

(** X6: the resolver is monotone in each condition.  Whatever the other
    fields hold, heavy traffic never gives a smaller factor than light or
    no traffic and very heavy traffic never a smaller one than heavy; heavy
    rain never a smaller one than light rain, and light rain never a smaller
    one than no rain; peak load never a smaller one than standard load. *)
Theorem getAdjustmentFactor_monotone :
  forall (p : params) (t0 c0 l0 : option string),
    strict_eq t0 "padat" = false ->
    strict_eq t0 "sangat_padat" = false ->
    strict_eq c0 "hujan_ringan" = false ->
    strict_eq c0 "hujan_lebat" = false ->
    strict_eq l0 "peak" = false ->
    le (factor_of (with_traffic p t0)) (factor_of (with_traffic p (Some "padat"))) = true /\
    le (factor_of (with_traffic p (Some "padat")))
       (factor_of (with_traffic p (Some "sangat_padat"))) = true /\
    le (factor_of (with_cuaca p c0)) (factor_of (with_cuaca p (Some "hujan_ringan"))) = true /\
    le (factor_of (with_cuaca p (Some "hujan_ringan")))
       (factor_of (with_cuaca p (Some "hujan_lebat"))) = true /\
    le (factor_of (with_loadFactor p l0))
       (factor_of (with_loadFactor p (Some "peak"))) = true.
Proof.
  intros p t0 c0 l0 H1 H2 H3 H4 H5.
  unfold factor_of. rewrite !getAdjustmentFactor_unfold.
  cbn [with_traffic with_cuaca with_loadFactor traffic cuaca loadFactor].
  rewrite H1, H2, H3, H4, H5.
  pose proof (strict_eq_exclusive (traffic p) "padat" "sangat_padat" eq_refl) as Ht.
  pose proof (strict_eq_exclusive (cuaca p) "hujan_ringan" "hujan_lebat" eq_refl) as Hc.
  destruct (strict_eq (traffic p) "padat");
    [rewrite (Ht eq_refl)|destruct (strict_eq (traffic p) "sangat_padat")];
    (destruct (strict_eq (cuaca p) "hujan_ringan");
     [rewrite (Hc eq_refl)|destruct (strict_eq (cuaca p) "hujan_lebat")]);
    destruct (strict_eq (loadFactor p) "peak");
    vm_compute; repeat split.
Qed.

Lemma getAdjustmentFactor_monotone_witness :
  strict_eq (Some "normal") "padat" = false /\
  strict_eq (Some "normal") "sangat_padat" = false /\
  strict_eq (Some "normal") "hujan_ringan" = false /\
  strict_eq (Some "normal") "hujan_lebat" = false /\
  strict_eq (Some "standard") "peak" = false /\
  le (factor_of (with_traffic no_params (Some "normal")))
     (factor_of (with_traffic no_params (Some "padat"))) = true.
Proof.
  repeat (split; [reflexivity|]).
  apply (getAdjustmentFactor_monotone no_params
           (Some "normal") (Some "normal") (Some "standard")
           eq_refl eq_refl eq_refl eq_refl eq_refl).
Defined.

(* ================================================================== *)
(** ** Properties of the weather and route services beyond the claims *)
(* ================================================================== *)

(** Whatever the argument, the weather factor is at least 1.0. *)
Lemma weather_factor_lower_bound (wd : option weather_data) :
  exists f, getWeatherAdjustmentFactor wd = Return f /\ le (dec 10 1) f = true.
Proof.
  destruct (weather_factor_shape wd) as [rain [rest [Hf [Hrain [Hrest _]]]]].
  eexists. split; [exact Hf|].
  cbn [In] in Hrain, Hrest.
  destruct Hrain as [<-|[<-|[<-|[]]]];
    destruct Hrest as [<-|[<-|[<-|[<-|[]]]]]; vm_compute; reflexivity.
Qed.

(** X7: the weather factor is never below 1.0, for any argument: weather
    can only raise the consumption.  Without weather data, or without its
    [current] block, the factor is exactly 1.0. *)
Theorem getWeatherAdjustmentFactor_at_least_one :
  forall wd : option weather_data,
    exists f,
      getWeatherAdjustmentFactor wd = Return f /\
      le (dec 10 1) f = true /\
      (match wd with
       | Some d => match current d with Some _ => True | None => f = dec 10 1 end
       | None => f = dec 10 1
       end).
Proof.
  intro wd. destruct (weather_factor_lower_bound wd) as [f [Hf Hle]].
  exists f. split; [exact Hf|]. split; [exact Hle|].
  destruct wd as [[[cur|]]|]; [exact I| |];
    unfold getWeatherAdjustmentFactor in Hf; cbn [try_catch current] in Hf;
    injection Hf as <-; reflexivity.
Qed.

(** X8: the estimator never throws.  When the route data lacks its
    distance or its duration, it answers the neutral adjustments
    (1.0, 1.0, 1.0), even if a warning mentions traffic; in every case the
    terrain multiplier is 1.0, the traffic multiplier 1.0 or 1.1 and the
    urban multiplier 0.95, 1.0 or 1.15. *)
Theorem estimateRouteAdjustments_total :
  forall (r : DirectionsService.route_data) (mode : string),
    exists a,
      DirectionsService.estimateRouteAdjustments r mode = Return a /\
      DirectionsService.terrain a = dec 10 1 /\
      In (DirectionsService.traffic a) [dec 10 1; dec 11 1] /\
      In (DirectionsService.urban a) [dec 95 2; dec 10 1; dec 115 2] /\
      (match DirectionsService.distance r, DirectionsService.duration r with
       | Some _, Some _ => True
       | _, _ => a = DirectionsService.no_adjustments
       end).
Proof.
  assert (Hneutral :
    DirectionsService.terrain DirectionsService.no_adjustments = dec 10 1 /\
    In (DirectionsService.traffic DirectionsService.no_adjustments)
       [dec 10 1; dec 11 1] /\
    In (DirectionsService.urban DirectionsService.no_adjustments)
       [dec 95 2; dec 10 1; dec 115 2] /\
    DirectionsService.no_adjustments = DirectionsService.no_adjustments).
  { split; [reflexivity|]. split; [left; reflexivity|].
    split; [right; left; reflexivity|reflexivity]. }
  intros [ws [d|] [h|]] mode; unfold DirectionsService.estimateRouteAdjustments;
    cbn [DirectionsService.warnings DirectionsService.distance
         DirectionsService.duration member bind try_catch];
    [|exists DirectionsService.no_adjustments; split; [reflexivity|exact Hneutral]..].
  eexists. split; [reflexivity|].
  assert (Htraffic : forall b : bool,
    In (if b then dec 11 1 else dec 10 1) [dec 10 1; dec 11 1])
    by (intros [|]; [right; left|left]; reflexivity).
  destruct ws as [ws|];
    [destruct (existsb DirectionsService.is_traffic_warning ws)|];
    (destruct (lt _ (dec 30 0)); [|destruct (gt _ (dec 80 0))]);
    unfold DirectionsService.set_urban, DirectionsService.set_traffic,
           DirectionsService.no_adjustments;
    cbn [DirectionsService.terrain DirectionsService.traffic
         DirectionsService.urban];
    (split; [reflexivity|]);
    (split; [first [exact (Htraffic true) | exact (Htraffic false)]|]);
    (split; [|exact I]);
    first [ left; reflexivity
          | right; left; reflexivity
          | right; right; left; reflexivity ].
Qed.

(** X9: a route that takes no time.  For a positive finite distance and a
    duration of zero hours the average speed is infinite, so the route
    counts as highway driving (0.95) when the zero is positive - and as
    urban driving (1.15) when it is the negative zero. *)
Theorem estimateRouteAdjustments_zero_duration :
  forall (s : RouteSummary) (mode : string) (m : positive) (e : Z) (sg : bool),
    distanceKm s = S754_finite false m e ->
    durationHours s = S754_zero sg ->
    exists a,
      DirectionsService.estimateRouteAdjustments (route_data_of s) mode = Return a /\
      averageSpeed s = S754_infinity sg /\
      DirectionsService.urban a = (if sg then dec 115 2 else dec 95 2).
Proof.
  intros s mode m e sg Hd Hh. eexists.
  split; [apply estimateRouteAdjustments_eq|].
  assert (Havg : averageSpeed s = S754_infinity sg)
    by (unfold averageSpeed; rewrite Hd, Hh; reflexivity).
  split; [exact Havg|].
  cbn [DirectionsService.urban]. rewrite Havg. destruct sg; reflexivity.
Qed.

Lemma estimateRouteAdjustments_zero_duration_witness :
  exists a,
    DirectionsService.estimateRouteAdjustments
      (route_data_of {| distanceKm := dec 150 0; durationHours := dec 0 0;
                        routeWarnings := [] |}) "mobil" = Return a /\
    averageSpeed {| distanceKm := dec 150 0; durationHours := dec 0 0;
                    routeWarnings := [] |} = S754_infinity false /\
    DirectionsService.urban a = dec 95 2.
Proof.
  apply (estimateRouteAdjustments_zero_duration
           {| distanceKm := dec 150 0; durationHours := dec 0 0;
              routeWarnings := [] |} "mobil" 5277655813324800 (-45) false);
    reflexivity.
Defined.

(* ================================================================== *)
(** ** Properties of the App's [calculateEmissions] *)
(* ================================================================== *)

Lemma computeFor_engine_record (t : App.selection) (d : number) (p : params) :
  App.computeFor t d p = Return (engine_record t d p).
Proof.
  unfold App.computeFor, engine_record.
  rewrite (proj1 (calculateComprehensiveEmission_result_of (App.key_of t) d p)).
  reflexivity.
Qed.

(** The App's record for a selection repeats the orchestrator's. *)
Lemma engine_record_fields (t : App.selection) (d : number) (p : params) :
  App.mode (engine_record t d p) = t /\
  App.distance (engine_record t d p) = round_to 2 d /\
  exists r0,
    calculateComprehensiveEmission (App.key_of t) d p = Return r0 /\
    App.distance (engine_record t d p) = distance r0 /\
    App.fuelConsumption (engine_record t d p) = fuelConsumption r0 /\
    App.emission (engine_record t d p) = emission r0 /\
    App.energySource (engine_record t d p) = energySource r0.
Proof.
  split; [reflexivity|]. split.
  - unfold engine_record, result_of. cbn [App.distance].
    destruct (calculateFuelConsumption_eq (App.key_of t) d p) as [a [Ha Hf]].
    unfold calculateComprehensiveEmission. rewrite Hf.
    cbn [bind calculateEmission]. reflexivity.
  - exists (result_of (App.key_of t) d p).
    split; [apply calculateComprehensiveEmission_result_of|].
    repeat split.
Qed.

(** The factor the App asks the weather service for depends on the
    scenario's [cuaca] alone. *)
Lemma weatherAdjustment_cuaca (p : params) :
  App.weatherAdjustment p = Return (cuaca_factor p).
Proof.
  unfold App.weatherAdjustment, getWeatherAdjustmentFactor, cuaca_factor.
  cbn [try_catch current condition temperature windSpeed num_or].
  rewrite weather_steps_as_product.
  change (lt (dec 25 0) (dec 15 0) || gt (dec 25 0) (dec 35 0)) with false.
  change (gt (dec 0 0) (dec 15 0)) with false.
  cbv iota. rewrite !app_nil_r. reflexivity.
Qed.

Lemma cuaca_factor_values (p : params) :
  In (cuaca_factor p) [dec 10 1; dec 105 2; dec 11 1] /\
  (cuaca p = None \/ cuaca p = Some "normal"%string -> cuaca_factor p = dec 10 1) /\
  (cuaca p = Some "hujan_ringan"%string \/ cuaca p = Some "hujan_lebat"%string ->
   cuaca_factor p = dec 11 1).
Proof.
  split; [|split].
  - unfold cuaca_factor, rain_multipliers.
    destruct (includes _ "hujan ringan" || includes _ "light rain");
      [right; left; reflexivity|].
    destruct (includes _ "hujan lebat" || includes _ "heavy rain"
              || includes _ "hujan");
      [right; right; left; reflexivity|left; reflexivity].
  - unfold cuaca_factor. intros [->| ->]; reflexivity.
  - unfold cuaca_factor. intros [->| ->]; reflexivity.
Qed.

(** A run of the App for a selected train. *)
Lemma calculateEmissions_train (route id : string) (p : params) (mode : string) :
  route <> ""%string -> In id ["ka_argo"%string; "kcic"%string] ->
  App.calculateEmissions route (App.One id) p mode
  = App.Computed (static_distance id)
      (map (App.apply_weather (cuaca_factor p))
           (engine_records (App.One id) (static_distance id) p mode)).
Proof.
  intros Hr Hid. unfold App.calculateEmissions, engine_records.
  destruct (String.eqb_spec route ""%string) as [E|_]; [contradiction|].
  assert (Hsel : App.selected (App.One id) = true /\
                 App.currentDistance route (App.One id) p
                 = App.Done (static_distance id)).
  { cbn [In] in Hid. destruct Hid as [<-|[<-|[]]]; split; reflexivity. }
  destruct Hsel as [Hsel Hd]. rewrite Hsel, Hd. cbn [orb negb App.and_then].
  rewrite weatherAdjustment_cuaca.
  destruct (String.eqb mode "aktual").
  - rewrite computeFor_engine_record. reflexivity.
  - rewrite (map_completion_returns _
               (fun m => engine_record (App.One m) _ p) _
               (fun m => computeFor_engine_record (App.One m) _ p)).
    reflexivity.
Qed.

(** X10: the App's weather pass.  In a run for a selected train, the fuel
    consumption and the emission of every stored record are the
    orchestrator's rounded values for that record's mode multiplied by one
    weather factor, and are not rounded again.  The factor is what the
    weather service returns for the scenario's [cuaca] value alone (never
    temperature or wind): 1.0, 1.05 or 1.10; it is 1.0 for normal or absent
    and 1.10 for both hujan_ringan and hujan_lebat, on top of the 1.05 or
    1.10 the resolver already applied. *)
Theorem calculateEmissions_weather_pass :
  forall (route id : string) (p : params) (mode : string),
    route <> ""%string ->
    In id ["ka_argo"%string; "kcic"%string] ->
    exists d w data,
      App.calculateEmissions route (App.One id) p mode = App.Computed d data /\
      App.weatherAdjustment p = Return w /\
      In w [dec 10 1; dec 105 2; dec 11 1] /\
      (cuaca p = None \/ cuaca p = Some "normal"%string -> w = dec 10 1) /\
      (cuaca p = Some "hujan_ringan"%string \/ cuaca p = Some "hujan_lebat"%string ->
       w = dec 11 1) /\
      data <> [] /\
      Forall (fun r =>
                exists r0,
                  calculateComprehensiveEmission (App.key_of (App.mode r)) d p
                  = Return r0 /\
                  App.fuelConsumption r = mul (fuelConsumption r0) w /\
                  App.emission r = mul (emission r0) w /\
                  App.distance r = distance r0 /\
                  App.energySource r = energySource r0) data.
Proof.
  intros route id p mode Hr Hid.
  exists (static_distance id), (cuaca_factor p). eexists.
  split; [apply calculateEmissions_train; assumption|].
  split; [apply weatherAdjustment_cuaca|].
  destruct (cuaca_factor_values p) as [Hin [Hnone Hrain]].
  split; [exact Hin|]. split; [exact Hnone|]. split; [exact Hrain|].
  assert (Hrec : forall t,
    exists r0,
      calculateComprehensiveEmission
        (App.key_of (App.mode (App.apply_weather (cuaca_factor p)
                                 (engine_record t (static_distance id) p))))
        (static_distance id) p = Return r0 /\
      App.fuelConsumption (App.apply_weather (cuaca_factor p)
                             (engine_record t (static_distance id) p))
      = mul (fuelConsumption r0) (cuaca_factor p) /\
      App.emission (App.apply_weather (cuaca_factor p)
                      (engine_record t (static_distance id) p))
      = mul (emission r0) (cuaca_factor p) /\
      App.distance (App.apply_weather (cuaca_factor p)
                      (engine_record t (static_distance id) p)) = distance r0 /\
      App.energySource (App.apply_weather (cuaca_factor p)
                          (engine_record t (static_distance id) p))
      = energySource r0).
  { intro t.
    destruct (engine_record_fields t (static_distance id) p)
      as [Hm [_ [r0 [Hr0 [Hd [Hf [He Hs]]]]]]].
    exists r0. cbn [App.apply_weather App.mode App.fuelConsumption
                    App.emission App.distance App.energySource].
    rewrite Hm, Hf, He. repeat split; assumption. }
  unfold engine_records. destruct (String.eqb mode "aktual").
  - split; [discriminate|]. cbn [map]. constructor; [apply Hrec|constructor].
  - split; [discriminate|]. apply Forall_forall. intros r Hin'.
    apply in_map_iff in Hin'. destruct Hin' as [r1 [<- Hin']].
    apply in_map_iff in Hin'. destruct Hin' as [m [<- _]]. apply Hrec.
Qed.

Lemma calculateEmissions_weather_pass_witness :
  "bandung-jakarta"%string <> ""%string /\
  In "kcic"%string ["ka_argo"%string; "kcic"%string] /\
  exists d w data,
    App.calculateEmissions "bandung-jakarta" (App.One "kcic")
      (with_cuaca no_params (Some "hujan_ringan"%string)) "aktual"
    = App.Computed d data /\
    App.weatherAdjustment (with_cuaca no_params (Some "hujan_ringan"%string))
    = Return w /\
    In w [dec 10 1; dec 105 2; dec 11 1].
Proof.
  assert (Hr : "bandung-jakarta"%string <> ""%string) by discriminate.
  assert (Hid : In "kcic"%string ["ka_argo"%string; "kcic"%string])
    by (right; left; reflexivity).
  split; [exact Hr|]. split; [exact Hid|].
  destruct (calculateEmissions_weather_pass "bandung-jakarta" "kcic"
              (with_cuaca no_params (Some "hujan_ringan"%string)) "aktual" Hr Hid)
    as [d [w [data [H1 [H2 [H3 _]]]]]].
  exists d, w, data. split; [exact H1|]. split; [exact H2|exact H3].
Defined.

(** X11: a run for a selected train.  The distance is set to the train's
    static value - 150 km for ka_argo, 142 km for kcic - whatever the route,
    the toll option and the other scenario fields are.  In the mode 'aktual'
    the run stores exactly one record, for the train; in any other mode it
    stores five, for mobil, bus, motor, ka_argo and kcic in this order; and
    every record carries the train's distance, the road modes' records
    too. *)
Theorem calculateEmissions_train_run :
  forall (route id : string) (p : params) (mode : string),
    route <> ""%string ->
    In id ["ka_argo"%string; "kcic"%string] ->
    exists d data,
      App.calculateEmissions route (App.One id) p mode = App.Computed d data /\
      d = (if String.eqb id "ka_argo" then dec 150 0 else dec 142 0) /\
      map App.mode data
      = (if String.eqb mode "aktual" then [App.One id]
         else map App.One mode_order) /\
      Forall (fun r => App.distance r = d) data.
Proof.
  intros route id p mode Hr Hid.
  exists (static_distance id). eexists.
  split; [apply calculateEmissions_train; assumption|].
  split; [reflexivity|].
  assert (Hround : round_to 2 (static_distance id) = static_distance id)
    by (cbn [In] in Hid; destruct Hid as [<-|[<-|[]]]; reflexivity).
  assert (Hdist : forall t,
    App.distance (App.apply_weather (cuaca_factor p)
                    (engine_record t (static_distance id) p))
    = static_distance id).
  { intro t. cbn [App.apply_weather App.distance].
    rewrite (proj1 (proj2 (engine_record_fields t (static_distance id) p))).
    exact Hround. }
  unfold engine_records. destruct (String.eqb mode "aktual").
  - split; [reflexivity|]. cbn [map]. constructor; [apply Hdist|constructor].
  - split.
    + rewrite !map_map. cbn [App.apply_weather App.mode]. reflexivity.
    + apply Forall_forall. intros r Hin.
      apply in_map_iff in Hin. destruct Hin as [r0 [<- Hin]].
      apply in_map_iff in Hin. destruct Hin as [m [<- _]]. apply Hdist.
Qed.

Lemma calculateEmissions_train_run_witness :
  "jakarta-bandung"%string <> ""%string /\
  In "kcic"%string ["ka_argo"%string; "kcic"%string] /\
  exists d data,
    App.calculateEmissions "jakarta-bandung" (App.One "kcic") no_params "prediksi"
    = App.Computed d data /\
    d = dec 142 0 /\
    map App.mode data = map App.One mode_order /\
    Forall (fun r => App.distance r = d) data.
Proof.
  assert (Hr : "jakarta-bandung"%string <> ""%string) by discriminate.
  assert (Hid : In "kcic"%string ["ka_argo"%string; "kcic"%string])
    by (right; left; reflexivity).
  split; [exact Hr|]. split; [exact Hid|].
  apply (calculateEmissions_train_run "jakarta-bandung" "kcic" no_params
           "prediksi" Hr Hid).
Defined.

(** X12: only trains are ever computed.  A run ends in one of three ways.
    It returns at once when no route or no mode is chosen.  It computes
    results only when a train is selected.  For every other selection - a
    road mode, an unknown id, an array of ids - on every route and in every
    mode it ends in the catch block with the ReferenceError for
    [routeCoordinates], which App.jsx reads without importing it: no
    distance is set, no record is stored, and the engine's functions
    themselves never throw. *)
Theorem calculateEmissions_outcomes :
  forall (route : string) (t : App.selection) (p : params) (mode : string),
    match App.calculateEmissions route t p mode with
    | App.Skipped => route = ""%string \/ App.selected t = false
    | App.Computed d data =>
        route <> ""%string /\ App.is_rail t = true /\ data <> []
    | App.Failed ex =>
        ex = App.ReferenceError "routeCoordinates" /\
        route <> ""%string /\ App.selected t = true /\ App.is_rail t = false
    end /\
    (App.is_rail t = false ->
     forall d data, App.calculateEmissions route t p mode <> App.Computed d data).
Proof.
  intros route t p mode.
  assert (Hcases :
    match App.calculateEmissions route t p mode with
    | App.Skipped => route = ""%string \/ App.selected t = false
    | App.Computed d data =>
        route <> ""%string /\ App.is_rail t = true /\ data <> []
    | App.Failed ex =>
        ex = App.ReferenceError "routeCoordinates" /\
        route <> ""%string /\ App.selected t = true /\ App.is_rail t = false
    end).
  { destruct (String.eqb_spec route ""%string) as [E|Hr].
    { unfold App.calculateEmissions. rewrite E. cbn [String.eqb orb]. left.
      reflexivity. }
    destruct (App.is_rail t) eqn:Hrail.
    - destruct t as [id|ids]; [|discriminate Hrail].
      assert (Hid : In id ["ka_argo"%string; "kcic"%string]).
      { cbn [App.is_rail existsb] in Hrail.
        destruct (String.eqb_spec id "ka_argo") as [->|_]; [left; reflexivity|].
        destruct (String.eqb_spec id "kcic") as [->|_];
          [right; left; reflexivity|discriminate Hrail]. }
      rewrite (calculateEmissions_train route id p mode Hr Hid).
      split; [exact Hr|]. split; [reflexivity|].
      unfold engine_records. destruct (String.eqb mode "aktual"); discriminate.
    - unfold App.calculateEmissions, App.currentDistance.
      destruct (String.eqb_spec route ""%string) as [E|_]; [contradiction|].
      rewrite Hrail. cbn [orb].
      destruct (App.selected t) eqn:Hsel; cbn [negb App.and_then].
      + repeat split; assumption.
      + right. reflexivity. }
  split; [exact Hcases|].
  intros Hrail d data Heq. rewrite Heq in Hcases.
  destruct Hcases as [_ [H _]]. congruence.
Qed.

(* ================================================================== *)
(** ** Properties of [validateParams] *)
(* ================================================================== *)

Lemma existsb_exists_key (k : string) (l : list string) :
  In k l -> existsb (String.eqb k) l = true.
Proof.
  intro H. apply existsb_exists. exists k. split; [exact H|apply String.eqb_refl].
Qed.

Lemma filter_nil_iff {A} (f : A -> bool) (l : list A) :
  filter f l = [] <-> Forall (fun x => f x = false) l.
Proof.
  induction l as [|a l IH]; cbn [filter].
  - split; [constructor|reflexivity].
  - destruct (f a) eqn:E.
    + split; [discriminate|]. intro H. inversion H; congruence.
    + rewrite IH. split; [intro H; constructor; assumption|].
      intro H. inversion H; assumption.
Qed.

(** The callback of the filter reports exactly the names described. *)
Lemma falsy_lookup_reported (params : list (string * ErrorHandler.param_value))
  (k : string) :
  negb (ErrorHandler.truthy (ErrorHandler.lookup params k))
  = reported_missing params k.
Proof.
  unfold ErrorHandler.lookup, reported_missing, inherited_key.
  destruct (ErrorHandler.own_value params k) as [v|].
  - destruct v as [| |[|]|[s|s| |s m e]|[|c s]|]; reflexivity.
  - destruct (existsb (String.eqb k) object_prototype_keys); reflexivity.
Qed.

(** X13: which parameters [validateParams] reports.  A required name is
    reported exactly when its own value is undefined, null, false, a zero,
    NaN or the empty string, or when it has no own value and is not a
    member every object inherits (such as toString); every other value -
    true, any other number, any non-empty string, any object - counts as
    present.  The answer is valid exactly when no required name is
    reported, and then carries neither error nor list; otherwise [missing]
    is the reported names in the order of [required] and the message is the
    fixed prefix followed by them, joined with ", ". *)
Theorem validateParams_characterised :
  forall (params : list (string * ErrorHandler.param_value))
         (required : list string),
    let v := ErrorHandler.validateParams params required in
    let reported := filter (reported_missing params) required in
    (ErrorHandler.valid v = true <->
     Forall (fun k => reported_missing params k = false) required) /\
    (ErrorHandler.valid v = true ->
     ErrorHandler.error v = None /\ ErrorHandler.missing v = None) /\
    (ErrorHandler.valid v = false ->
     reported <> [] /\
     ErrorHandler.missing v = Some reported /\
     ErrorHandler.error v
     = Some ("Parameter yang diperlukan tidak lengkap: "
             ++ String.concat ", " reported)%string) /\
    (forall k x,
        ErrorHandler.own_value params k = Some x ->
        reported_missing params k = true <->
        x = ErrorHandler.PUndefined \/ x = ErrorHandler.PNull \/
        x = ErrorHandler.PBool false \/
        (exists s, x = ErrorHandler.PNumber (S754_zero s)) \/
        x = ErrorHandler.PNumber S754_nan \/
        x = ErrorHandler.PString ""%string) /\
    (forall k,
        ErrorHandler.own_value params k = None ->
        reported_missing params k = true <-> ~ In k object_prototype_keys).
Proof.
  intros params required v reported. subst v reported.
  unfold ErrorHandler.validateParams.
  rewrite (filter_ext _ _ (falsy_lookup_reported params)).
  pose proof (filter_nil_iff (reported_missing params) required) as Hnil.
  split; [|split; [|split; [|split]]].
  - destruct (filter (reported_missing params) required) as [|k0 l];
      cbn [List.length Nat.ltb Nat.leb ErrorHandler.valid].
    + split; [intros _; apply Hnil; reflexivity|reflexivity].
    + split; [discriminate|]. intro H. apply Hnil in H. discriminate H.
  - destruct (filter (reported_missing params) required) as [|k0 l];
      cbn [List.length Nat.ltb Nat.leb ErrorHandler.valid ErrorHandler.error
           ErrorHandler.missing].
    + intros _. split; reflexivity.
    + discriminate.
  - destruct (filter (reported_missing params) required) as [|k0 l];
      cbn [List.length Nat.ltb Nat.leb ErrorHandler.valid ErrorHandler.error
           ErrorHandler.missing].
    + discriminate.
    + intros _. split; [discriminate|]. split; reflexivity.
  - intros k x Hown. unfold reported_missing. rewrite Hown.
    destruct x as [| |[|]|[s|s| |s m e]|[|c s]|]; split; intro H;
      try reflexivity; try discriminate H;
      try (destruct H as [H|[H|[H|[[? H]|[H|H]]]]]; discriminate H).
    + left. reflexivity.
    + right. left. reflexivity.
    + right. right. left. reflexivity.
    + right. right. right. left. exists s. reflexivity.
    + right. right. right. right. left. reflexivity.
    + right. right. right. right. right. reflexivity.
  - intros k Hown. unfold reported_missing, inherited_key. rewrite Hown.
    destruct (existsb (String.eqb k) object_prototype_keys) eqn:E; cbn [negb].
    + split; [discriminate|]. intro H. exfalso. apply H.
      apply existsb_exists in E. destruct E as [k' [Hin Hk]].
      apply String.eqb_eq in Hk. subst k'. exact Hin.
    + split; [|reflexivity]. intros _ Hin.
      apply existsb_exists_key in Hin. congruence.
Qed.

(* ================================================================== *)
(** ** Properties of [retryOperation] *)
(* ================================================================== *)

(** The loop on a scripted operation whose next [k] calls fail and whose
    call after them succeeds. *)
Lemma retry_rounds_success {A E} (script : nat -> ErrorHandler.settled A E)
  (k : nat) (a : A) :
  forall (rounds calls waits : nat) (lastError : option E),
    (k < rounds)%nat ->
    (forall j, (j < k)%nat -> exists e, script (calls + j)%nat = ErrorHandler.Rejected e) ->
    script (calls + k)%nat = ErrorHandler.Fulfilled a ->
    ErrorHandler.retry_rounds rounds (scripted script) calls lastError waits
    = (ErrorHandler.Fulfilled a, S (calls + k), (waits + k)%nat).
Proof.
  induction k as [|k IH]; intros rounds calls waits lastError Hk Hfail Hok.
  - destruct rounds as [|rest]; [lia|].
    cbn [ErrorHandler.retry_rounds]. unfold scripted at 1.
    rewrite Nat.add_0_r in Hok. rewrite Hok.
    rewrite !Nat.add_0_r. reflexivity.
  - destruct rounds as [|rest]; [lia|].
    cbn [ErrorHandler.retry_rounds]. unfold scripted at 1.
    destruct (Hfail 0%nat ltac:(lia)) as [e He].
    rewrite Nat.add_0_r in He. rewrite He.
    destruct rest as [|rest']; [lia|].
    rewrite (IH (S rest') (S calls) (S waits) (Some e)); [|lia| |].
    + replace (S calls + k)%nat with (calls + S k)%nat by lia.
      replace (S waits + k)%nat with (waits + S k)%nat by lia.
      reflexivity.
    + intros j Hj. destruct (Hfail (S j) ltac:(lia)) as [e' He'].
      exists e'. rewrite <- He'. f_equal. lia.
    + rewrite <- Hok. f_equal. lia.
Qed.

(** The loop on a scripted operation whose next [rounds] calls all fail. *)
Lemma retry_rounds_failure {A E} (script : nat -> ErrorHandler.settled A E)
  (err : nat -> E) :
  forall (rounds calls waits : nat) (lastError : option E),
    (forall j, (j < rounds)%nat ->
               script (calls + j)%nat = ErrorHandler.Rejected (err (calls + j)%nat)) ->
    ErrorHandler.retry_rounds (A := A) rounds (scripted script) calls lastError waits
    = (ErrorHandler.Rejected
         (match rounds with
          | O => lastError
          | S r => Some (err (calls + r)%nat)
          end),
       (calls + rounds)%nat, (waits + Nat.pred rounds)%nat).
Proof.
  induction rounds as [|rest IH]; intros calls waits lastError Hfail.
  - cbn. rewrite !Nat.add_0_r. reflexivity.
  - cbn [ErrorHandler.retry_rounds]. unfold scripted at 1.
    pose proof (Hfail 0%nat ltac:(lia)) as He.
    rewrite Nat.add_0_r in He. rewrite He.
    rewrite IH.
    + destruct rest as [|rest'].
      * cbn [Nat.pred]. rewrite !Nat.add_0_r, Nat.add_1_r. reflexivity.
      * cbn [Nat.pred].
        replace (S calls + S rest')%nat with (calls + S (S rest'))%nat by lia.
        replace (S calls + rest')%nat with (calls + S rest')%nat by lia.
        replace (S waits + rest')%nat with (waits + S rest')%nat by lia.
        reflexivity.
    + intros j Hj. rewrite Nat.add_succ_comm. apply Hfail. lia.
Qed.

(** X14: [retryOperation] returns the first success.  If the operation
    fails [k] times and then succeeds, with [k <= maxRetries], the promise
    is fulfilled with that value after exactly [k + 1] calls and [k] waits;
    no further call is made. *)
Theorem retryOperation_first_success :
  forall (A E : Type) (script : nat -> ErrorHandler.settled A E)
         (maxRetries : Z) (k : nat) (a : A),
    Z.of_nat k <= maxRetries ->
    (forall j, (j < k)%nat -> exists e, script j = ErrorHandler.Rejected e) ->
    script k = ErrorHandler.Fulfilled a ->
    ErrorHandler.retryOperation (scripted script) maxRetries 0%nat
    = (ErrorHandler.Fulfilled a, S k, k).
Proof.
  intros A E script maxRetries k a Hk Hfail Hok.
  unfold ErrorHandler.retryOperation.
  apply (retry_rounds_success script k a (Z.to_nat (maxRetries + 1)) 0 0 None).
  - lia.
  - exact Hfail.
  - exact Hok.
Qed.

Lemma retryOperation_first_success_witness :
  Z.of_nat 2 <= 3 /\
  ErrorHandler.retryOperation (scripted third_time_lucky) 3 0%nat
  = (ErrorHandler.Fulfilled "ok"%string, 3%nat, 2%nat).
Proof.
  assert (Hk : Z.of_nat 2 <= 3) by (cbn; lia).
  split; [exact Hk|].
  apply (retryOperation_first_success string string third_time_lucky 3 2
           "ok"%string Hk).
  - intros j Hj. exists "timeout"%string.
    destruct j as [|[|j]]; [reflexivity|reflexivity|lia].
  - reflexivity.
Defined.

(** X15: [retryOperation] gives up after [maxRetries + 1] failed calls.
    If the operation fails every time, the promise is rejected with the
    error of the last call, after exactly [maxRetries + 1] calls and
    [maxRetries] waits (none after the last failure).  With a negative
    [maxRetries] the operation is never called and the promise is rejected
    with undefined. *)
Theorem retryOperation_gives_up :
  forall (A E : Type) (script : nat -> ErrorHandler.settled A E)
         (err : nat -> E) (maxRetries : Z),
    (forall j, script j = ErrorHandler.Rejected (err j)) ->
    ErrorHandler.retryOperation (scripted script) maxRetries 0%nat
    = if maxRetries <? 0
      then (ErrorHandler.Rejected None, 0%nat, 0%nat)
      else (ErrorHandler.Rejected (Some (err (Z.to_nat maxRetries))),
            S (Z.to_nat maxRetries), Z.to_nat maxRetries).
Proof.
  intros A E script err maxRetries Hfail.
  unfold ErrorHandler.retryOperation.
  rewrite (retry_rounds_failure script err); [|intros j _; apply Hfail].
  destruct (Z.ltb_spec maxRetries 0) as [Hneg|Hpos].
  - replace (Z.to_nat (maxRetries + 1)) with 0%nat by lia. reflexivity.
  - replace (Z.to_nat (maxRetries + 1)) with (S (Z.to_nat maxRetries)) by lia.
    reflexivity.
Qed.

Lemma retryOperation_gives_up_witness :
  ErrorHandler.retryOperation (A := string) (scripted always_failing) 3 0%nat
  = (ErrorHandler.Rejected (Some 3%nat), 4%nat, 3%nat).
Proof.
  apply (retryOperation_gives_up string nat always_failing (fun k => k) 3).
  intro j. reflexivity.
Defined.

(* ================================================================== *)
(** ** Properties of [formatNumber] *)
(* ================================================================== *)

(** X16: [formatNumber] rounds to the nearest.  With more than 100 or
    fewer than 0 decimals it throws a RangeError.  Otherwise NaN prints as
    NaN, an infinity as Infinity with its sign, a zero of either sign as an
    unsigned zero, a magnitude of at least 10^21 in the default number
    format; and any other number [(-1)^s * m * 2^e] prints, with its sign,
    the digits of the integer [n] nearest to [m * 2^e * 10^decimals], the
    larger one on a tie - so a negative number that rounds to zero prints as
    -0.00. *)
Theorem formatNumber_nearest :
  forall (value : number) (decimals : Z),
    (decimals < 0 \/ 100 < decimals ->
     Format.formatNumber value decimals = Throw RangeError) /\
    (0 <= decimals <= 100 ->
     exists text,
       Format.formatNumber value decimals = Return text /\
       match value with
       | S754_nan => text = StrNaN
       | S754_infinity s => text = StrInfinity s
       | S754_zero _ => text = StrFixed false 0 (Z.to_nat decimals)
       | S754_finite s m e =>
           if at_least_1e21 m e then text = StrToString value
           else exists n,
               text = StrFixed s n (Z.to_nat decimals) /\
               0 <= n /\
               if e <? 0
               then 2 * n * 2 ^ (- e) - 2 ^ (- e)
                    <= 2 * (Zpos m * 10 ^ decimals)
                    < 2 * n * 2 ^ (- e) + 2 ^ (- e)
               else n = Zpos m * 10 ^ decimals * 2 ^ e
       end).
Proof.
  intros value decimals. unfold Format.formatNumber, Format.toFixed_checked.
  split.
  - intros [H|H].
    + destruct (Z.ltb_spec decimals 0); [reflexivity|lia].
    + destruct (Z.ltb_spec decimals 0); [reflexivity|].
      destruct (Z.ltb_spec 100 decimals); [reflexivity|lia].
  - intros [H0 H100].
    destruct (Z.ltb_spec decimals 0); [lia|].
    destruct (Z.ltb_spec 100 decimals); [lia|]. cbn [orb].
    eexists. split; [reflexivity|].
    destruct value as [s|s| |s m e]; cbn [Format.parseFloat_number toFixed];
      try reflexivity.
    destruct (at_least_1e21 m e); [reflexivity|].
    exists (fixed_digits m e (Z.to_nat decimals)). split; [reflexivity|].
    assert (Hpow : 0 < 10 ^ decimals) by (apply Z.pow_pos_nonneg; lia).
    destruct (Z.ltb_spec e 0) as [He|He].
    + pose proof (fixed_digits_nearest m e (Z.to_nat decimals) He) as Hn.
      cbv zeta in Hn. rewrite Z2Nat.id in Hn by lia.
      split; [|exact Hn].
      assert (0 < 2 ^ (- e)) by (apply Z.pow_pos_nonneg; lia). nia.
    + unfold fixed_digits. rewrite Z2Nat.id by lia.
      destruct (Z.leb_spec 0 e); [|lia].
      split; [|reflexivity].
      assert (0 < 2 ^ e) by (apply Z.pow_pos_nonneg; lia). nia.
Qed.

(* ================================================================== *)
(** ** The forecast card against the weather service *)
(* ================================================================== *)

(** The weather service on a condition alone. *)
Lemma condition_only_factor (c : string) :
  getWeatherAdjustmentFactor (condition_only c)
  = Return (product_over_base (rain_multipliers (toLowerCase c))).
Proof.
  change (getWeatherAdjustmentFactor (condition_only c))
    with (App.weatherAdjustment (with_cuaca no_params (Some c))).
  rewrite weatherAdjustment_cuaca. unfold cuaca_factor.
  cbn [with_cuaca cuaca]. rewrite str_or_toLowerCase. reflexivity.
Qed.

Lemma rain_product_at_least_one (text : string) :
  le (dec 10 1) (product_over_base (rain_multipliers text)) = true.
Proof.
  unfold rain_multipliers.
  destruct (includes text "hujan ringan" || includes text "light rain");
    [reflexivity|].
  destruct (includes text "hujan lebat" || includes text "heavy rain"
            || includes text "hujan"); reflexivity.
Qed.

(** X17: the forecast card never overstates the weather.  Whenever
    [getWeatherAdjustment] shows a factor for a condition, the weather
    service's factor for that condition is at least as large, and the two
    are equal for the nine conditions of the card's table, in any letter
    case. *)
Theorem getWeatherAdjustment_agrees_with_service :
  forall (c : string) (f : number),
    Forecast.factor (Forecast.getWeatherAdjustment (Some c)) = Some f ->
    exists g,
      getWeatherAdjustmentFactor (condition_only c) = Return g /\
      le f g = true /\
      (Forecast.own_entry Forecast.adjustments (toLowerCase c) <> None -> f = g).
Proof.
  intros c f Hf. rewrite condition_only_factor.
  eexists. split; [reflexivity|].
  unfold Forecast.getWeatherAdjustment in Hf.
  revert Hf. generalize (toLowerCase c). intro key.
  unfold Forecast.adjustments.
  repeat (cbn [Forecast.own_entry];
          match goal with
          | |- context [String.eqb ?k key] =>
              destruct (String.eqb_spec k key) as [<-|?];
              [intro Hf; vm_compute in Hf; injection Hf as <-;
               vm_compute; split; [reflexivity|intros _; reflexivity]|]
          end).
  cbn [Forecast.own_entry]. intro Hf.
  split; [|intro H; exfalso; apply H; reflexivity].
  destruct (existsb (String.eqb key) object_prototype_keys);
    [discriminate Hf|].
  injection Hf as <-. apply rain_product_at_least_one.
Qed.

Lemma getWeatherAdjustment_agrees_with_service_witness :
  Forecast.factor (Forecast.getWeatherAdjustment (Some "Hujan Ringan"%string))
  = Some (dec 105 2) /\
  exists g,
    getWeatherAdjustmentFactor (condition_only "Hujan Ringan") = Return g /\
    le (dec 105 2) g = true /\
    (Forecast.own_entry Forecast.adjustments (toLowerCase "Hujan Ringan") <> None ->
     dec 105 2 = g).
Proof.
  split; [reflexivity|].
  apply (getWeatherAdjustment_agrees_with_service "Hujan Ringan" (dec 105 2)).
  reflexivity.
Defined.
